(** * Delivery tracking core of the Himalayan Fresh backend

    A shallow embedding of the polyline codec ([tools/decode_polyline.js]),
    of the route densifier of the driver simulator and of the tracking
    routes (location and status updates), with the properties the
    specification states about them; then of the code around them (the
    geometry helpers, the fallback route of the simulator, the reading
    of a tracking record and the delivery status routes of the
    subscriptions), with properties read off that code.

    Conventions.
    - A JavaScript string is the list of its UTF-16 code units.
    - The 32-bit integer operators of JavaScript ([<<], [>>], [&], [|], [~])
      are written out on [Z] with their wrap-around ([ToInt32]).
    - Numbers that only go through [+], [-], [*], [/] and [Math.round]
      (the codec) are exact rationals; numbers that go through [Math.sin],
      [Math.cos], [Math.sqrt] and [Math.atan2] (the haversine distance and
      everything that depends on it) are real numbers.
    - A [Date] is its time value, the number of milliseconds since the
      epoch. *)

From Stdlib Require Import ZArith QArith Qround Qabs Reals Lia Lqa Lra List Ascii String.
From stdpp Require Import gmap strings list.

Local Open Scope Z_scope.

(** ** JavaScript primitives *)

Module JS.

(** A string as its UTF-16 code units. *)
Definition jsstring := list Z.

(** [ToInt32]: wrap an integer into the signed 32-bit range. *)
Definition ToInt32 (z : Z) : Z := (z + 2 ^ 31) mod 2 ^ 32 - 2 ^ 31.

(** [a & b] *)
Definition and32 (a b : Z) : Z := Z.land (ToInt32 a) (ToInt32 b).

(** [a | b] *)
Definition or32 (a b : Z) : Z := Z.lor (ToInt32 a) (ToInt32 b).

(** [~a] *)
Definition not32 (a : Z) : Z := Z.lnot (ToInt32 a).

(** [a << s]: the shift count is taken modulo 32, the result wraps. *)
Definition shl32 (a s : Z) : Z := ToInt32 (Z.shiftl (ToInt32 a) (s mod 32)).

(** [a >> s]: sign-propagating shift, the count is taken modulo 32. *)
Definition sar32 (a s : Z) : Z := Z.shiftr (ToInt32 a) (s mod 32).

(** A number that may be [NaN]: [None] is [NaN]. *)
Definition num := option Z.

(** [ToInt32] of a possibly-[NaN] number: [NaN] converts to 0. *)
Definition ToInt32_num (b : num) : Z :=
  match b with Some z => ToInt32 z | None => 0 end.

(** [b >= c]: every comparison with [NaN] is false. *)
Definition ge_num (b : num) (c : Z) : bool :=
  match b with Some z => c <=? z | None => false end.

(** [s.charCodeAt(i)]: the code unit at [i], [NaN] out of range. *)
Definition charCodeAt (s : jsstring) (i : nat) : num := nth_error s i.

(** [String.fromCharCode(n)]: the code unit [ToUint16 n]. *)
Definition fromCharCode (n : Z) : Z := n mod 2 ^ 16.

(** [Math.round]: the nearest integer, halves rounded up. Its argument
    in [encodePolyline], the product [point.lat * 1e5], is the exact
    product here, where the code rounds the double nearest to it: the two
    results differ by 1 when the exact product and the double lie on the
    two sides of a half-way point. *)
Definition round (q : Q) : Z := Qfloor (q + (1 # 2)).

(** The code units of an ASCII literal. *)
Fixpoint of_string (s : string) : jsstring :=
  match s with
  | EmptyString => []
  | String c s' => Z.of_nat (nat_of_ascii c) :: of_string s'
  end.

End JS.

(** ** The polyline codec ([tools/decode_polyline.js]) *)

Module Polyline.
Import JS.

Record LatLng := mkLatLng { lat : Q; lng : Q }.

(** The loop of [encodeNumber]:
    [while (sgn_num >= 0x20) { encoded += ...; sgn_num >>= 5; }
     encoded += String.fromCharCode(sgn_num + 63);] *)
Fixpoint encodeNumber_loop (fuel : nat) (sgn_num : Z) (encoded : jsstring)
  : option jsstring :=
  match fuel with
  | O => None
  | S fuel' =>
      if 0x20 <=? sgn_num
      then encodeNumber_loop fuel' (sar32 sgn_num 5)
             (encoded ++ [fromCharCode (or32 0x20 (and32 sgn_num 0x1f) + 63)])
      else Some (encoded ++ [fromCharCode (sgn_num + 63)])
  end.

(** A 32-bit value is below [0x20] after at most six shifts by five. *)
Definition encodeNumber_fuel : nat := 8.

Definition encodeNumber (n : Z) : option jsstring :=
  let sgn_num := shl32 n 1 in
  let sgn_num := if n <? 0 then not32 sgn_num else sgn_num in
  encodeNumber_loop encodeNumber_fuel sgn_num [].

(** The loop of [encodePolyline] over the coordinates, with the running
    [encoded], [prevLat] and [prevLng]. *)
Fixpoint encodePolyline_loop (coordinates : list LatLng)
    (encoded : jsstring) (prevLat prevLng : Z) : option jsstring :=
  match coordinates with
  | [] => Some encoded
  | point :: rest =>
      let lat := round (lat point * 100000) in
      let lng := round (lng point * 100000) in
      match encodeNumber (lat - prevLat), encodeNumber (lng - prevLng) with
      | Some elat, Some elng =>
          encodePolyline_loop rest ((encoded ++ elat) ++ elng) lat lng
      | _, _ => None
      end
  end.

Definition encodePolyline (coordinates : list LatLng) : option jsstring :=
  match coordinates with
  | [] => Some []
  | _ => encodePolyline_loop coordinates [] 0 0
  end.

(** One [do { b = encoded.charCodeAt(index++) - 63;
             result |= (b & 0x1f) << shift; shift += 5; }
        while (b >= 0x20)] loop; returns [result] and the new [index]. *)
Fixpoint decodeChunks (fuel : nat) (encoded : jsstring) (index : nat)
    (shift result : Z) : option (Z * nat) :=
  match fuel with
  | O => None
  | S fuel' =>
      let b : num := option_map (fun c => c - 63) (charCodeAt encoded index) in
      let index := S index in
      let result := or32 result (shl32 (and32 (ToInt32_num b) 0x1f) shift) in
      let shift := shift + 5 in
      if ge_num b 0x20
      then decodeChunks fuel' encoded index shift result
      else Some (result, index)
  end.

(** [(result & 1) ? ~(result >> 1) : (result >> 1)] *)
Definition unzigzag (result : Z) : Z :=
  if and32 result 1 =? 0 then sar32 result 1 else not32 (sar32 result 1).

(** The [while (index < encoded.length)] loop of [decodePolyline]. *)
Fixpoint decodePolyline_loop (fuel : nat) (encoded : jsstring) (index : nat)
    (lat lng : Z) (points : list LatLng) : option (list LatLng) :=
  match fuel with
  | O => None
  | S fuel' =>
      if (index <? length encoded)%nat then
        match decodeChunks (S (length encoded)) encoded index 0 0 with
        | None => None
        | Some (result, index) =>
            let lat := lat + unzigzag result in
            match decodeChunks (S (length encoded)) encoded index 0 0 with
            | None => None
            | Some (result, index) =>
                let lng := lng + unzigzag result in
                decodePolyline_loop fuel' encoded index lat lng
                  (points ++ [mkLatLng (inject_Z lat / 100000)
                                       (inject_Z lng / 100000)])
            end
        end
      else Some points
  end.

(** [decodePolyline] run with [fuel] iterations of its outer loop. *)
Definition decodePolyline_fuel (fuel : nat) (encoded : jsstring)
  : option (list LatLng) :=
  match encoded with
  | [] => Some []
  | _ => decodePolyline_loop fuel encoded 0 0 0 []
  end.

(** Every pass of the outer loop consumes a code unit, so the length of
    the input bounds the number of passes (see [decodePolyline_loop_total]
    and [decodePolyline_fuel_enough]). *)
Definition decodePolyline (encoded : jsstring) : option (list LatLng) :=
  decodePolyline_fuel (S (length encoded)) encoded.

End Polyline.

(** ** Geometry on real numbers *)

Module Geo.
Local Open Scope R_scope.

(** [Math.atan2(y, x)] *)
Definition atan2 (y x : R) : R :=
  if Rlt_dec 0 x then atan (y / x)
  else if Rlt_dec x 0 then
    (if Rle_dec 0 y then atan (y / x) + PI else atan (y / x) - PI)
  else if Rlt_dec 0 y then PI / 2
  else if Rlt_dec y 0 then - (PI / 2)
  else 0.

(** The haversine formula as all three copies in the repository write it
    ([calculateDistance] of the tracking routes and of the codec module,
    [calculateDistanceMeters] of the simulator). *)
Definition haversine (lat1 lng1 lat2 lng2 : R) : R :=
  let R_earth := 6371000 in
  let dLat := (lat2 - lat1) * PI / 180 in
  let dLng := (lng2 - lng1) * PI / 180 in
  let a :=
    sin (dLat / 2) * sin (dLat / 2) +
    cos (lat1 * PI / 180) * cos (lat2 * PI / 180) *
    sin (dLng / 2) * sin (dLng / 2) in
  let c := 2 * atan2 (sqrt a) (sqrt (1 - a)) in
  R_earth * c.

(** Truthiness of a number: every number but 0 (and [NaN]). *)
Definition truthy (x : R) : bool := if Req_dec_T x 0 then false else true.

End Geo.

(** ** The route densifier of the driver simulator *)

Module Simulator.
Import Geo.
Local Open Scope R_scope.

Record Point := mkPoint { lat : R; lng : R }.

Definition calculateDistanceMeters (lat1 lng1 lat2 lng2 : R) : R :=
  haversine lat1 lng1 lat2 lng2.

Definition interpolatePoint (start end_ : Point) (fraction : R) : Point :=
  {| lat := lat start + (lat end_ - lat start) * fraction;
     lng := lng start + (lng end_ - lng start) * fraction |}.

(** The scan of [getPointAtDistance] standing at the segment that starts
    at [start]; [rest] are the route points after [start]. When no
    segment is left the last point is returned. *)
Fixpoint getPointAtDistance_from (start : Point) (rest : list Point)
    (accumulatedDistance targetDistance : R) : Point :=
  match rest with
  | [] => start
  | end_ :: rest' =>
      let segmentDistance :=
        calculateDistanceMeters (lat start) (lng start) (lat end_) (lng end_) in
      if Rge_dec (accumulatedDistance + segmentDistance) targetDistance then
        let distanceIntoSegment := targetDistance - accumulatedDistance in
        let fraction :=
          if Rgt_dec segmentDistance 0
          then distanceIntoSegment / segmentDistance else 0 in
        interpolatePoint start end_ (Rmin fraction 1)
      else
        getPointAtDistance_from end_ rest'
          (accumulatedDistance + segmentDistance) targetDistance
  end.

(** [getPointAtDistance]; [None] is the coordinate-less object the source
    yields on an empty route, which [generateHighResolutionRoute] never
    passes. *)
Definition getPointAtDistance (routePoints : list Point) (targetDistance : R)
  : option Point :=
  match routePoints with
  | [] => None
  | start :: rest => Some (getPointAtDistance_from start rest 0 targetDistance)
  end.

(** [for (i = 0; i < routePoints.length - 1; i++) totalDistance += ...] *)
Fixpoint totalDistance_from (start : Point) (rest : list Point)
    (totalDistance : R) : R :=
  match rest with
  | [] => totalDistance
  | end_ :: rest' =>
      totalDistance_from end_ rest'
        (totalDistance +
         calculateDistanceMeters (lat start) (lng start) (lat end_) (lng end_))
  end.

(** [for (i = 0; i <= numPoints; i++)]: [count] passes left, at index [i]. *)
Fixpoint generate_loop (count i : nat) (routePoints : list Point)
    (distancePerUpdate : R) (highResPoints : list Point) : list Point :=
  match count with
  | O => highResPoints
  | S count' =>
      let targetDistance := INR i * distancePerUpdate in
      let highResPoints :=
        match getPointAtDistance routePoints targetDistance with
        | Some point => highResPoints ++ [point]
        | None => highResPoints
        end in
      generate_loop count' (S i) routePoints distancePerUpdate highResPoints
  end.

Definition generateHighResolutionRoute (routePoints : list Point)
    (speedKmh updateIntervalMs : R) : list Point :=
  match routePoints with
  | [] | [_] => routePoints
  | start :: rest =>
      let speedMps := speedKmh * 1000 / 3600 in
      let distancePerUpdate := speedMps * (updateIntervalMs / 1000) in
      let totalDistance := totalDistance_from start rest 0 in
      let numPoints := Zceil (totalDistance / distancePerUpdate) in
      let highResPoints :=
        generate_loop (Z.to_nat (numPoints + 1)) 0 routePoints
          distancePerUpdate [] in
      let lastOriginal := List.last rest start in
      match last highResPoints with
      | Some lastGenerated =>
          if Rgt_dec
               (calculateDistanceMeters (lat lastGenerated) (lng lastGenerated)
                  (lat lastOriginal) (lng lastOriginal)) 1
          then highResPoints ++ [lastOriginal]
          else highResPoints
      | None => highResPoints ++ [lastOriginal]
      end
  end.

End Simulator.

(** ** The tracking routes: location and status updates *)

Module Tracking.
Import Geo.

(** A [Date] as its time value in milliseconds. *)
Definition Date := Z.

Definition msPerDay : Z := 86400000.

(** [new Date(x)] for a number [x]: the time value is [x] with its
    fraction dropped. *)
Definition Date_of_number (x : R) : Date :=
  if Rle_dec 0 x then Zfloor x else Zceil x.

(** [d.setDate(d.getDate() + k)]: [k] calendar days later at the same
    local time; the local time zone has a fixed offset, so that every
    local day has [msPerDay] milliseconds. *)
Definition Date_addDays (d : Date) (k : Z) : Date := d + k * msPerDay.

Record CurrentLocation := mkCurrentLocation {
  cl_latitude : option R;
  cl_longitude : option R;
  cl_heading : R;
  cl_speed : R;
  cl_accuracy : R }.

Record RoutePoint := mkRoutePoint { rp_lat : R; rp_lng : R }.

Record Route := mkRoute {
  polyline : option string;
  points : list RoutePoint;
  distance : option R;
  duration : option R;
  eta : option Date }.

Record Place := mkPlace {
  latitude : option R;
  longitude : option R;
  address : option string }.

Record HistoryEntry := mkHistoryEntry {
  h_latitude : R;
  h_longitude : R;
  h_timestamp : Date }.

(** The value of a [status]: a string, [null], or nothing at all
    ([undefined]: a body without the key, a document without the path).
    A number or a boolean reaches the document as the string the schema
    casts it to, and is that string here. *)
Inductive StatusValue :=
| StatusString (s : string)
| StatusNull
| StatusUndefined.

Coercion StatusString : string >-> StatusValue.
Bind Scope string_scope with StatusValue.

(** A document of the [Tracking] collection ([TrackingSchema]). *)
Record TrackingDoc := mkTracking {
  orderId : string;
  deliveryType : string;
  subscriptionId : option string;
  subscriptionDeliveryId : option string;
  driverId : string;
  driverName : string;
  driverPhone : string;
  driverRating : R;
  status : StatusValue;
  currentLocation : CurrentLocation;
  route : Route;
  origin : Place;
  destination : Place;
  history : list HistoryEntry;
  lastUpdated : Date;
  createdAt : Date }.

(** The [enum] of [TrackingSchema.status]. *)
Definition status_enum : list string :=
  ["assigned"; "picking_up"; "en_route"; "nearby"; "arrived"; "delivered"]%string.

(** A document of the [Subscription] collection ([SubscriptionSchema]),
    with the fields the tracking routes read or write. *)
Record SubscriptionDoc := mkSubscription {
  title : string;
  plan : string;
  sub_status : string;
  deliveryStatus : string;
  lastDeliveredDate : option Date;
  timeSlot : string;
  nextDelivery : option Date;
  deliveriesInCycle : Z;
  addressId : option string;
  userId : string }.

(** Values of an event payload. [JIso d] is [d.toISOString()]. *)
Inductive JsValue :=
| JString (s : string)
| JNumber (x : R)
| JIso (d : Date)
| JNull
| JUndefined.

(** [io.to(room).emit(event, payload)]; the payload is the object
    literal, its keys in order. *)
Record Emit := mkEmit {
  room : string;
  event : string;
  payload : list (string * JsValue) }.

(** The two collections and the log of emitted events. One document per
    [orderId], as the routes maintain it. *)
Record World := mkWorld {
  trackings : gmap string TrackingDoc;
  subscriptions : gmap string SubscriptionDoc;
  emitted : list Emit }.

Inductive Response :=
| Ok200 (tracking : TrackingDoc)
| NotFound404 (error : string)
| ServerError500 (error : string).

(** *** [PATCH /:orderId/location] *)

Record LocationBody := mkLocationBody {
  b_latitude : R;
  b_longitude : R;
  b_heading : option R;
  b_speed : option R }.

(** The three readings of the clock of one location update:
    [Date.now()] of the ETA, [new Date()] of [lastUpdated] and
    [new Date()] of the history entry. *)
Record LocationClock := mkLocationClock {
  etaNow : Date;
  updatedNow : Date;
  historyNow : Date }.

Definition calculateDistance (lat1 lng1 lat2 lng2 : R) : R :=
  haversine lat1 lng1 lat2 lng2.

(** [x || 0] on an optional number. *)
Definition or_zero (x : option R) : R :=
  match x with Some v => v | None => 0%R end.

(** [$push: { history: { $each: [e], $slice: -n } }]: append, then keep
    the last [n] elements. *)
Definition push_slice_last (n : nat) (history : list HistoryEntry)
    (e : HistoryEntry) : list HistoryEntry :=
  let pushed := history ++ [e] in
  drop (length pushed - n) pushed.

(** The ETA computed from the stored destination. *)
Definition newEta (existingTracking : TrackingDoc) (body : LocationBody)
    (now : Date) : option Date :=
  match latitude (destination existingTracking),
        longitude (destination existingTracking) with
  | Some dlat, Some dlng =>
      if truthy dlat && truthy dlng then
        let remainingDist :=
          calculateDistance (b_latitude body) (b_longitude body) dlat dlng in
        let remainingSeconds := (remainingDist / 1000 / 30 * 3600)%R in
        Some (Date_of_number (IZR now + remainingSeconds * 1000)%R)
      else None
  | _, _ => None
  end.

(** The document after the [$set] and [$push] of [findOneAndUpdate]. *)
Definition applyLocationUpdate (t : TrackingDoc) (body : LocationBody)
    (eta' : option Date) (clock : LocationClock) : TrackingDoc :=
  {| orderId := orderId t;
     deliveryType := deliveryType t;
     subscriptionId := subscriptionId t;
     subscriptionDeliveryId := subscriptionDeliveryId t;
     driverId := driverId t;
     driverName := driverName t;
     driverPhone := driverPhone t;
     driverRating := driverRating t;
     status := status t;
     currentLocation :=
       {| cl_latitude := Some (b_latitude body);
          cl_longitude := Some (b_longitude body);
          cl_heading := or_zero (b_heading body);
          cl_speed := or_zero (b_speed body);
          cl_accuracy := cl_accuracy (currentLocation t) |};
     route :=
       {| polyline := polyline (route t);
          points := points (route t);
          distance := distance (route t);
          duration := duration (route t);
          eta := eta' |};
     origin := origin t;
     destination := destination t;
     history :=
       push_slice_last 100 (history t)
         {| h_latitude := b_latitude body;
            h_longitude := b_longitude body;
            h_timestamp := historyNow clock |};
     lastUpdated := updatedNow clock;
     createdAt := createdAt t |}.

Definition opt_iso (d : option Date) : JsValue :=
  match d with Some d => JIso d | None => JUndefined end.

Definition updateLocation (w : World) (id : string) (body : LocationBody)
    (clock : LocationClock) : Response * World :=
  match trackings w !! id with
  | None => (NotFound404 "Tracking not found for this order", w)
  | Some existingTracking =>
      let eta' := newEta existingTracking body (etaNow clock) in
      let tracking := applyLocationUpdate existingTracking body eta' clock in
      let ev :=
        {| room := "order:" +:+ id;
           event := "driverLocation";
           payload :=
             [("orderId", JString id);
              ("latitude", JNumber (b_latitude body));
              ("longitude", JNumber (b_longitude body));
              ("heading", JNumber (cl_heading (currentLocation tracking)));
              ("speed", JNumber (cl_speed (currentLocation tracking)));
              ("eta", opt_iso (eta (route tracking)));
              ("timestamp", JIso (lastUpdated tracking))]%string |} in
      (Ok200 tracking,
       {| trackings := <[id := tracking]> (trackings w);
          subscriptions := subscriptions w;
          emitted := emitted w ++ [ev] |})
  end.

(** A run of location updates on one record, in order. *)
Fixpoint updateLocations (w : World) (id : string)
    (calls : list (LocationBody * LocationClock)) : World :=
  match calls with
  | [] => w
  | (body, clock) :: calls' =>
      updateLocations (snd (updateLocation w id body clock)) id calls'
  end.

(** *** [PATCH /:orderId/status] *)

(** The two readings of the clock of one status update: [new Date()] of
    [lastUpdated] and [new Date()] of [today] in the delivered branch. *)
Record StatusClock := mkStatusClock {
  statusNow : Date;
  today : Date }.

(** The literal [statusMap]; [None] is a missing key. *)
Definition statusMap (s : string) : option string :=
  if (s =? "assigned")%string then Some "packed"%string
  else if (s =? "picking_up")%string then Some "packed"%string
  else if (s =? "en_route")%string then Some "out_for_delivery"%string
  else if (s =? "nearby")%string then Some "nearby"%string
  else if (s =? "arrived")%string then Some "nearby"%string
  else if (s =? "delivered")%string then Some "delivered"%string
  else None.

(** [statusMap[status] || 'pending'] *)
Definition subscriptionStatus_of (s : string) : string :=
  match statusMap s with Some v => v | None => "pending"%string end.

(** The [switch (subscription.plan)] of the next delivery. *)
Definition nextDate (plan : string) (today : Date) : Date :=
  if (plan =? "daily")%string then Date_addDays today 1
  else if (plan =? "alternate")%string then Date_addDays today 2
  else if (plan =? "weekly")%string then Date_addDays today 7
  else Date_addDays today 1.

(** The subscription after the assignments of the sync. *)
Definition syncedSubscription (subscription : SubscriptionDoc)
    (subscriptionStatus : string) (today : Date) : SubscriptionDoc :=
  let delivered := (subscriptionStatus =? "delivered")%string in
  {| title := title subscription;
     plan := plan subscription;
     sub_status := sub_status subscription;
     deliveryStatus := subscriptionStatus;
     lastDeliveredDate :=
       if delivered then Some today else lastDeliveredDate subscription;
     timeSlot := timeSlot subscription;
     nextDelivery :=
       if delivered then Some (nextDate (plan subscription) today)
       else nextDelivery subscription;
     deliveriesInCycle :=
       if delivered
       then (if deliveriesInCycle subscription =? 0 then 0
             else deliveriesInCycle subscription) + 1
       else deliveriesInCycle subscription;
     addressId := addressId subscription;
     userId := userId subscription |}.

(** The body of the [try] of the sync: [Subscription.findById(orderId)],
    the assignments and [subscription.save()]. An identifier that
    [findById] cannot cast raises inside the [try] and is caught there:
    the collection is left as it is, as for an identifier that is not
    found. *)
Definition syncSubscription (subs : gmap string SubscriptionDoc)
    (id status : string) (today : Date) : gmap string SubscriptionDoc :=
  let subscriptionStatus := subscriptionStatus_of status in
  match subs !! id with
  | Some subscription =>
      <[id := syncedSubscription subscription subscriptionStatus today]> subs
  | None => subs
  end.

(** [tracking.status = status; tracking.lastUpdated = new Date()] *)
Definition applyStatusUpdate (t : TrackingDoc) (status' : StatusValue)
    (now : Date) : TrackingDoc :=
  {| orderId := orderId t;
     deliveryType := deliveryType t;
     subscriptionId := subscriptionId t;
     subscriptionDeliveryId := subscriptionDeliveryId t;
     driverId := driverId t;
     driverName := driverName t;
     driverPhone := driverPhone t;
     driverRating := driverRating t;
     status := status';
     currentLocation := currentLocation t;
     route := route t;
     origin := origin t;
     destination := destination t;
     history := history t;
     lastUpdated := now;
     createdAt := createdAt t |}.

(** The validation [tracking.save()] runs on the modified [status]
    path: a value outside the [enum] makes [save] throw before anything
    is written. *)
Definition validStatus (s : string) : bool :=
  existsb (String.eqb s) status_enum.

Definition validationMessage (s : string) : string :=
  "Tracking validation failed: status: `" +:+ s +:+
  "` is not a valid enum value for path `status`.".

(** What [tracking.save()] accepts as the status of the body: a string
    of the [enum]; and, the path not being required, [null] and
    [undefined], which the validators are not run on. *)
Definition acceptedStatus (status' : StatusValue) : bool :=
  match status' with
  | StatusString s => validStatus s
  | StatusNull | StatusUndefined => true
  end.

(** The property key [statusMap[status]] reads: the status as a
    string. *)
Definition statusKey (status' : StatusValue) : string :=
  match status' with
  | StatusString s => s
  | StatusNull => "null"
  | StatusUndefined => "undefined"
  end.

(** The status as a value of the payload. *)
Definition js_of_status (status' : StatusValue) : JsValue :=
  match status' with
  | StatusString s => JString s
  | StatusNull => JNull
  | StatusUndefined => JUndefined
  end.

(** [PATCH /:orderId/status]; [status'] is [req.body.status]. *)
Definition updateStatus (w : World) (id : string) (status' : StatusValue)
    (clock : StatusClock) : Response * World :=
  match trackings w !! id with
  | None => (NotFound404 "Tracking not found", w)
  | Some tracking =>
      let tracking := applyStatusUpdate tracking status' (statusNow clock) in
      if negb (acceptedStatus status') then
        (ServerError500 (validationMessage (statusKey status')), w)
      else
        let trackings' := <[id := tracking]> (trackings w) in
        let subscriptions' :=
          if (deliveryType tracking =? "subscription")%string
             || (String.length id =? 24)%nat
          then syncSubscription (subscriptions w) id (statusKey status')
                 (today clock)
          else subscriptions w in
        let ev :=
          {| room := "order:" +:+ id;
             event := "statusUpdate";
             payload :=
               [("orderId", JString id);
                ("status", js_of_status status');
                ("timestamp", JIso (lastUpdated tracking))]%string |} in
        (Ok200 tracking,
         {| trackings := trackings';
            subscriptions := subscriptions';
            emitted := emitted w ++ [ev] |})
  end.

End Tracking.

(** ** Predicates and sample data used by the statements *)

Module PolylineSpec.
Import JS Polyline.

(** A coordinate in units of 1e-5 degree, as [encodePolyline] rounds it. *)
Definition e5 (q : Q) : Z := round (q * 100000).

(** The point the decoder returns for [p]: both coordinates snapped to the
    1e-5 grid. *)
Definition snap (p : LatLng) : LatLng :=
  mkLatLng (inject_Z (e5 (lat p)) / 100000) (inject_Z (e5 (lng p)) / 100000).

(** A coordinate rounded to 5 decimal places: a multiple of 1e-5. *)
Definition rounded5 (q : Q) : Prop :=
  (q * 100000 == inject_Z (Qfloor (q * 100000)))%Q.

(** Both coordinates of [q] within 1e-5 of those of [p]. *)
Definition close (p q : LatLng) : Prop :=
  (Qabs (lat q - lat p) <= 1 # 100000)%Q /\
  (Qabs (lng q - lng p) <= 1 # 100000)%Q.

(** Every delta [encodePolyline] hands to [encodeNumber] (the first point
    against 0, every later point against its predecessor) doubles within
    32 bits. *)
Fixpoint deltas_in_range (prevLat prevLng : Z) (pts : list LatLng) : Prop :=
  match pts with
  | [] => True
  | p :: rest =>
      - 2 ^ 30 <= e5 (lat p) - prevLat < 2 ^ 30 /\
      - 2 ^ 30 <= e5 (lng p) - prevLng < 2 ^ 30 /\
      deltas_in_range (e5 (lat p)) (e5 (lng p)) rest
  end.

(** A latitude in [-90, 90] and a longitude in [-180, 180]. *)
Definition geographic (p : LatLng) : Prop :=
  (- (90) <= lat p <= 90)%Q /\ (- (180) <= lng p <= 180)%Q.

(** The round trip as the specification words it. *)
Definition roundtrips (pts : list LatLng) : Prop :=
  exists s decoded,
    encodePolyline pts = Some s /\
    decodePolyline s = Some decoded /\
    length decoded = length pts /\
    Forall2 close pts decoded.

Definition googleSample : list LatLng :=
  [mkLatLng (385 # 10) (-1202 # 10);
   mkLatLng (407 # 10) (-12095 # 100);
   mkLatLng (43252 # 1000) (-126453 # 1000)].

End PolylineSpec.

Module SimulatorSpec.
Import Simulator.
Local Open Scope R_scope.

(** Two descriptions of the north pole. The second longitude is small
    enough for the double-precision evaluation of the haversine formula to
    underflow to 0 as well, as its exact value is. *)
Definition northPole : Point := mkPoint 90 0.
Definition northPole' : Point := mkPoint 90 (/ 10 ^ 150).

Definition sampleRoute : list Point :=
  [mkPoint (28641824 / 1000000) (77341519 / 1000000);
   mkPoint (2865 / 100) (7735 / 100)].

End SimulatorSpec.

Module TrackingSpec.
Import Tracking.

(** The last [n] elements of a list. *)
Definition lastN {A} (n : nat) (l : list A) : list A := drop (length l - n) l.

(** The history entry a location update appends. *)
Definition entry_of (call : LocationBody * LocationClock) : HistoryEntry :=
  {| h_latitude := b_latitude (fst call);
     h_longitude := b_longitude (fst call);
     h_timestamp := historyNow (snd call) |}.


(** The four fields of a subscription the status sync writes. *)
Definition sync_fields_equal (s s' : SubscriptionDoc) : Prop :=
  deliveryStatus s' = deliveryStatus s /\
  lastDeliveredDate s' = lastDeliveredDate s /\
  deliveriesInCycle s' = deliveriesInCycle s /\
  nextDelivery s' = nextDelivery s.

(** A tracking document with the defaults of the schema, of the given
    delivery type, destination and stored ETA. *)
Definition sampleTracking (id dtype : string) (dest : Place)
    (eta0 : option Date) : TrackingDoc :=
  {| orderId := id;
     deliveryType := dtype;
     subscriptionId := None;
     subscriptionDeliveryId := None;
     driverId := "driver-1";
     driverName := "Rajesh Kumar";
     driverPhone := "+91-9876543210";
     driverRating := (49 / 10)%R;
     status := "assigned";
     currentLocation :=
       {| cl_latitude := None; cl_longitude := None;
          cl_heading := 0%R; cl_speed := 0%R; cl_accuracy := 10%R |};
     route :=
       {| polyline := None; points := []; distance := None;
          duration := None; eta := eta0 |};
     origin := {| latitude := None; longitude := None; address := None |};
     destination := dest;
     history := [];
     lastUpdated := 1704844800000;
     createdAt := 1704844800000 |}.

(** A subscription with the defaults of the schema and the given plan. *)
Definition sampleSubscription (plan0 : string) : SubscriptionDoc :=
  {| title := "Milk";
     plan := plan0;
     sub_status := "active";
     deliveryStatus := "pending";
     lastDeliveredDate := None;
     timeSlot := "8-10";
     nextDelivery := Some 1704844800000;
     deliveriesInCycle := 0;
     addressId := None;
     userId := "default-user" |}.

Definition noPlace : Place :=
  {| latitude := None; longitude := None; address := None |}.

(** A 24-character identifier, as the database generates them. *)
Definition objectId : string := "665f1c2ab3d4e5f6a7b8c9d0".

(** A tracking record of type [order] whose identifier is also the
    identifier of a subscription. *)
Definition orderNamedLikeSubscription : World :=
  {| trackings := {[ objectId := sampleTracking objectId "order" noPlace None ]};
     subscriptions := {[ objectId := sampleSubscription "weekly" ]};
     emitted := [] |}.

(** A tracking record of type [subscription] with its subscription. *)
Definition subscriptionWorld : World :=
  {| trackings :=
       {[ objectId := sampleTracking objectId "subscription" noPlace None ]};
     subscriptions := {[ objectId := sampleSubscription "weekly" ]};
     emitted := [] |}.

(** A tracking record of type [order] with a short identifier, no
    destination and a stored ETA. *)
Definition orderWorld : World :=
  {| trackings :=
       {[ "order123"%string :=
            sampleTracking "order123" "order" noPlace (Some 1704846600000) ]};
     subscriptions := {[ objectId := sampleSubscription "daily" ]};
     emitted := [] |}.

(** A destination on the equator. *)
Definition equatorPlace : Place :=
  {| latitude := Some 0%R; longitude := Some (3707 / 100)%R;
     address := Some "Nanyuki"%string |}.

Definition equatorWorld : World :=
  {| trackings :=
       {[ "order123"%string :=
            sampleTracking "order123" "order" equatorPlace (Some 1704846600000) ]};
     subscriptions := ∅;
     emitted := [] |}.

Definition sampleBody : LocationBody :=
  {| b_latitude := (1 / 100)%R; b_longitude := (3707 / 100)%R;
     b_heading := Some 180%R; b_speed := None |}.

Definition sampleLocationClock : LocationClock :=
  {| etaNow := 1704844800000; updatedNow := 1704844800001;
     historyNow := 1704844800002 |}.

(** 2024-01-10T00:00:00Z *)
Definition sampleStatusClock : StatusClock :=
  {| statusNow := 1704844800000; today := 1704844800000 |}.

(** 101 location updates, one per second. *)
Definition sampleCalls : list (LocationBody * LocationClock) :=
  map (fun i : nat =>
         (sampleBody,
          {| etaNow := 1704844800000 + 1000 * Z.of_nat i;
             updatedNow := 1704844800000 + 1000 * Z.of_nat i;
             historyNow := 1704844800000 + 1000 * Z.of_nat i |}))
      (seq 0 101).

End TrackingSpec.

(** ** Further code of the three modules *)

(** *** The geometry helpers of [tools/decode_polyline.js] *)

Module GeoTools.
Import Geo.
Local Open Scope R_scope.

(** [toRad] *)
Definition toRad (deg : R) : R := deg * (PI / 180).

(** [calculateDistance] of [tools/decode_polyline.js], which converts its
    angles with [toRad]. *)
Definition calculateDistance (lat1 lng1 lat2 lng2 : R) : R :=
  let R_earth := 6371000 in
  let dLat := toRad (lat2 - lat1) in
  let dLng := toRad (lng2 - lng1) in
  let a :=
    sin (dLat / 2) * sin (dLat / 2) +
    cos (toRad lat1) * cos (toRad lat2) *
    sin (dLng / 2) * sin (dLng / 2) in
  let c := 2 * atan2 (sqrt a) (sqrt (1 - a)) in
  R_earth * c.

(** [a % b] on numbers: the remainder has the sign of the dividend. *)
Definition js_rem (a b : R) : R :=
  let q := a / b in
  a - b * IZR (if Rle_dec 0 q then Zfloor q else Zceil q).

(** [calculateBearing] of [tools/decode_polyline.js]. *)
Definition calculateBearing (lat1 lng1 lat2 lng2 : R) : R :=
  let dLng := toRad (lng2 - lng1) in
  let y := sin dLng * cos (toRad lat2) in
  let x := cos (toRad lat1) * sin (toRad lat2) -
           sin (toRad lat1) * cos (toRad lat2) * cos dLng in
  let bearing := atan2 y x * (180 / PI) in
  js_rem (bearing + 360) 360.

End GeoTools.

(** *** The rest of the route code of the simulator *)

Module SimulatorRoute.
Import Geo Simulator.
Local Open Scope R_scope.

(** [calculateBearing] of the simulator. *)
Definition calculateBearing (lat1 lng1 lat2 lng2 : R) : R :=
  let dLng := (lng2 - lng1) * PI / 180 in
  let lat1Rad := lat1 * PI / 180 in
  let lat2Rad := lat2 * PI / 180 in
  let y := sin dLng * cos lat2Rad in
  let x := cos lat1Rad * sin lat2Rad - sin lat1Rad * cos lat2Rad * cos dLng in
  let bearing := atan2 y x * 180 / PI in
  GeoTools.js_rem (bearing + 360) 360.



(** A point of the segment from [s] to [e]. *)
Definition between (s e p : Point) : Prop :=
  exists f, 0 <= f <= 1 /\ p = interpolatePoint s e f.

(** A point of the polyline through [route]: a point of one of its
    segments. *)
Fixpoint on_route (route : list Point) (p : Point) : Prop :=
  match route with
  | s :: ((e :: _) as rest) => between s e p \/ on_route rest p
  | _ => False
  end.

End SimulatorRoute.


(** ** [GET /:orderId] of the tracking routes *)

Module TrackingGet.
Import JS Tracking.

(** The two readings of the clock of [new Tracking({ orderId })]: the
    defaults of [lastUpdated] and of [createdAt]. *)
Record CreateClock := mkCreateClock {
  lastUpdatedNow : Date;
  createdNow : Date }.

(** [new Tracking({ orderId })]: the defaults of [TrackingSchema]. *)
Definition newTracking (id : string) (clock : CreateClock) : TrackingDoc :=
  {| orderId := id;
     deliveryType := "order";
     subscriptionId := None;
     subscriptionDeliveryId := None;
     driverId := "driver-1";
     driverName := "Rajesh Kumar";
     driverPhone := "+91-9876543210";
     driverRating := (49 / 10)%R;
     status := "assigned";
     currentLocation :=
       {| cl_latitude := None; cl_longitude := None;
          cl_heading := 0%R; cl_speed := 0%R; cl_accuracy := 10%R |};
     route :=
       {| polyline := None; points := []; distance := None;
          duration := None; eta := None |};
     origin := {| latitude := None; longitude := None; address := None |};
     destination := {| latitude := None; longitude := None; address := None |};
     history := [];
     lastUpdated := lastUpdatedNow clock;
     createdAt := createdNow clock |}.

(** A rational coordinate of the codec as the number the response
    carries. *)
Definition number_of_Q (q : Q) : R := (IZR (Qnum q) / IZR (Zpos (Qden q)))%R.

Definition routePoint_of (p : Polyline.LatLng) : RoutePoint :=
  {| rp_lat := number_of_Q (Polyline.lat p);
     rp_lng := number_of_Q (Polyline.lng p) |}.

(** The points of the response: the stored ones when there are any,
    otherwise those of the stored polyline when it is a non-empty string
    (of code units below 256, as [of_string] reads them); the [catch]
    answers with no points. *)
Definition responsePoints (r : Route) : list RoutePoint :=
  match points r with
  | _ :: _ => points r
  | [] =>
      match polyline r with
      | Some s =>
          if (s =? "")%string then points r
          else match Polyline.decodePolyline (of_string s) with
               | Some decoded => map routePoint_of decoded
               | None => []
               end
      | None => points r
      end
  end.

(** [tracking.toObject()] with the points of the response. *)
Definition trackingObj (t : TrackingDoc) : TrackingDoc :=
  {| orderId := orderId t;
     deliveryType := deliveryType t;
     subscriptionId := subscriptionId t;
     subscriptionDeliveryId := subscriptionDeliveryId t;
     driverId := driverId t;
     driverName := driverName t;
     driverPhone := driverPhone t;
     driverRating := driverRating t;
     status := status t;
     currentLocation := currentLocation t;
     route :=
       {| polyline := polyline (route t);
          points := responsePoints (route t);
          distance := distance (route t);
          duration := duration (route t);
          eta := eta (route t) |};
     origin := origin t;
     destination := destination t;
     history := history t;
     lastUpdated := lastUpdated t;
     createdAt := createdAt t |}.

(** [GET /:orderId]: the record of the order, created with the defaults
    when there is none. *)
Definition getTracking (w : World) (id : string) (clock : CreateClock)
  : Response * World :=
  match trackings w !! id with
  | Some tracking => (Ok200 (trackingObj tracking), w)
  | None =>
      let tracking := newTracking id clock in
      (Ok200 (trackingObj tracking),
       {| trackings := <[id := tracking]> (trackings w);
          subscriptions := subscriptions w;
          emitted := emitted w |})
  end.

End TrackingGet.

(** ** The delivery status routes of [routes/subscriptions.js] *)

Module SubscriptionRoutes.
Import Tracking.

(** [d.setHours(0, 0, 0, 0)]: the start of the local day of [d], for a
    local time [tz] milliseconds ahead of UTC. *)
Definition startOfDay (tz : Z) (d : Date) : Date := d - (d + tz) mod msPerDay.

Definition validStatuses : list string :=
  ["pending"; "packed"; "out_for_delivery"; "nearby"; "delivered"]%string.

(** A hexadecimal digit, of either case. *)
Definition isHexDigit (c : ascii) : bool :=
  let n := nat_of_ascii c in
  ((48 <=? n) && (n <=? 57) || (65 <=? n) && (n <=? 70)
   || (97 <=? n) && (n <=? 102))%nat.

(** The identifiers [findById] can cast to an [ObjectId]: the strings of
    24 hexadecimal digits, as the [ObjectId] of bson 5 and later takes
    them (earlier versions also took strings of 12 characters, which
    then name no subscription). On any other string the cast throws, and
    the [catch] of the route answers for it. *)
Definition isObjectId (id : string) : bool :=
  (String.length id =? 24)%nat && forallb isHexDigit (list_ascii_of_string id).

(** The responses of the two routes. [SubCastError400] is the answer of
    the [catch] to an identifier that does not cast: status 400 with the
    message of the cast error. *)
Inductive SubResponse :=
| SubOk (subscription : SubscriptionDoc)
| SubEffective (subscription : SubscriptionDoc) (effectiveDeliveryStatus : string)
| SubBadRequest400 (error : string)
| SubCastError400
| SubNotFound404 (error : string).

(** [Subscription.findById(id)] where it finds no subscription: [null]
    for an identifier that casts, which the routes answer with 404, and
    the cast error otherwise. A stored subscription has an identifier
    that casts, so that the cast only fails where nothing is found. *)
Definition notFound (id : string) : SubResponse :=
  if isObjectId id then SubNotFound404 "Subscription not found"
  else SubCastError400.

(** The assignments of [PATCH /:id/delivery-status] to the subscription
    it found. *)
Definition applyDeliveryStatus (subscription : SubscriptionDoc)
    (status' : string) (today : Date) : SubscriptionDoc :=
  if (status' =? "delivered")%string then
    let nextDate :=
      if (plan subscription =? "daily")%string then Date_addDays today 1
      else if (plan subscription =? "alternate")%string then Date_addDays today 2
      else if (plan subscription =? "weekly")%string then Date_addDays today 7
      else Date_addDays today 1 in
    {| title := title subscription;
       plan := plan subscription;
       sub_status := sub_status subscription;
       deliveryStatus := status';
       lastDeliveredDate := Some today;
       timeSlot := timeSlot subscription;
       nextDelivery := Some nextDate;
       deliveriesInCycle :=
         (if deliveriesInCycle subscription =? 0 then 0
          else deliveriesInCycle subscription) + 1;
       addressId := addressId subscription;
       userId := userId subscription |}
  else
    {| title := title subscription;
       plan := plan subscription;
       sub_status := sub_status subscription;
       deliveryStatus := status';
       lastDeliveredDate := lastDeliveredDate subscription;
       timeSlot := timeSlot subscription;
       nextDelivery := nextDelivery subscription;
       deliveriesInCycle := deliveriesInCycle subscription;
       addressId := addressId subscription;
       userId := userId subscription |}.

Definition invalidStatusMessage : string :=
  "Invalid status. Must be one of: pending, packed, out_for_delivery, nearby, delivered".

(** [PATCH /:id/delivery-status]; [None] is a body without a [status]
    string. *)
Definition updateDeliveryStatus (subs : gmap string SubscriptionDoc)
    (id : string) (status' : option string) (today : Date)
  : SubResponse * gmap string SubscriptionDoc :=
  match status' with
  | None => (SubBadRequest400 invalidStatusMessage, subs)
  | Some s =>
      if (s =? "")%string || negb (existsb (String.eqb s) validStatuses) then
        (SubBadRequest400 invalidStatusMessage, subs)
      else
        match subs !! id with
        | None => (notFound id, subs)
        | Some subscription =>
            let subscription := applyDeliveryStatus subscription s today in
            (SubOk subscription, <[id := subscription]> subs)
        end
  end.

(** [subscription.deliveryStatus || 'pending'] *)
Definition or_pending (s : string) : string :=
  if (s =? "")%string then "pending"%string else s.

(** The effective status [GET /:id] works out before its write. *)
Definition effectiveStatus (subscription : SubscriptionDoc)
    (today : Date) (nextDelivery lastDelivered : option Date) : string :=
  let effectiveDeliveryStatus := or_pending (deliveryStatus subscription) in
  match lastDelivered, nextDelivery with
  | Some lastDelivered, Some nextDelivery =>
      if (effectiveDeliveryStatus =? "delivered")%string then
        if (lastDelivered <=? today) && (today <? nextDelivery)
        then "delivered"%string
        else if nextDelivery <=? today then "pending"%string
        else effectiveDeliveryStatus
      else effectiveDeliveryStatus
  | _, _ => effectiveDeliveryStatus
  end.

Definition setDeliveryStatus (subscription : SubscriptionDoc) (s : string)
  : SubscriptionDoc :=
  {| title := title subscription;
     plan := plan subscription;
     sub_status := sub_status subscription;
     deliveryStatus := s;
     lastDeliveredDate := lastDeliveredDate subscription;
     timeSlot := timeSlot subscription;
     nextDelivery := nextDelivery subscription;
     deliveriesInCycle := deliveriesInCycle subscription;
     addressId := addressId subscription;
     userId := userId subscription |}.

(** [GET /:id]: the subscription with its effective delivery status; on
    the day of the next delivery a pending subscription is stored as
    packed. *)
Definition getSubscription (tz : Z) (subs : gmap string SubscriptionDoc)
    (id : string) (now : Date)
  : SubResponse * gmap string SubscriptionDoc :=
  match subs !! id with
  | None => (notFound id, subs)
  | Some subscription =>
      let today := startOfDay tz now in
      let nextDelivery' := option_map (startOfDay tz) (nextDelivery subscription) in
      let lastDelivered :=
        option_map (startOfDay tz) (lastDeliveredDate subscription) in
      let effectiveDeliveryStatus :=
        effectiveStatus subscription today nextDelivery' lastDelivered in
      match nextDelivery' with
      | Some nd =>
          if (today =? nd) && (effectiveDeliveryStatus =? "pending")%string then
            let subscription := setDeliveryStatus subscription "packed" in
            (SubEffective subscription "packed", <[id := subscription]> subs)
          else (SubEffective subscription effectiveDeliveryStatus, subs)
      | None => (SubEffective subscription effectiveDeliveryStatus, subs)
      end
  end.

End SubscriptionRoutes.

(** ** Further sample states *)

Module RouteSamples.
Import Tracking TrackingSpec.

(** A destination in Noida. *)
Definition noidaPlace : Place :=
  {| latitude := Some (2865 / 100)%R; longitude := Some (7735 / 100)%R;
     address := Some "Noida"%string |}.

(** A tracking record of type [order] on its way to Noida. *)
Definition noidaWorld : World :=
  {| trackings :=
       {[ "order123"%string :=
            sampleTracking "order123" "order" noidaPlace None ]};
     subscriptions := {[ objectId := sampleSubscription "daily" ]};
     emitted := [] |}.

(** Three location updates, one per second. *)
Definition threeCalls : list (LocationBody * LocationClock) :=
  map (fun i : nat =>
         (sampleBody,
          {| etaNow := 1704844800000 + 1000 * Z.of_nat i;
             updatedNow := 1704844800000 + 1000 * Z.of_nat i;
             historyNow := 1704844800000 + 1000 * Z.of_nat i |}))
      (seq 0 3).

(** A subscription delivery on its way: the tracking record is
    [en_route] and the subscription [out_for_delivery]. *)
Definition enRouteSubscription : SubscriptionDoc :=
  {| title := "Milk";
     plan := "weekly";
     sub_status := "active";
     deliveryStatus := "out_for_delivery";
     lastDeliveredDate := None;
     timeSlot := "8-10";
     nextDelivery := Some 1704844800000;
     deliveriesInCycle := 0;
     addressId := None;
     userId := "default-user" |}.

Definition enRouteWorld : World :=
  {| trackings :=
       {[ objectId :=
            applyStatusUpdate (sampleTracking objectId "subscription" noPlace None)
              "en_route" 1704841200000 ]};
     subscriptions := {[ objectId := enRouteSubscription ]};
     emitted := [] |}.

(** 2024-01-10T06:00:00Z and 2024-01-11T06:00:00Z *)
Definition laterStatusClock : StatusClock :=
  {| statusNow := 1704866400000; today := 1704866400000 |}.

(** A record whose route is stored as the polyline of the format's
    documentation only. *)
Definition polylineTracking : TrackingDoc :=
  {| orderId := "order123";
     deliveryType := "order";
     subscriptionId := None;
     subscriptionDeliveryId := None;
     driverId := "driver-1";
     driverName := "Rajesh Kumar";
     driverPhone := "+91-9876543210";
     driverRating := (49 / 10)%R;
     status := "en_route";
     currentLocation :=
       {| cl_latitude := None; cl_longitude := None;
          cl_heading := 0%R; cl_speed := 0%R; cl_accuracy := 10%R |};
     route :=
       {| polyline := Some "_p~iF~ps|U_ulLnnqC_mqNvxq`@"%string; points := [];
          distance := None; duration := None; eta := None |};
     origin := noPlace;
     destination := noPlace;
     history := [];
     lastUpdated := 1704844800000;
     createdAt := 1704844800000 |}.

Definition polylineWorld : World :=
  {| trackings := {[ "order123"%string := polylineTracking ]};
     subscriptions := ∅;
     emitted := [] |}.

End RouteSamples.

(** * Properties *)

(** ** The polyline codec *)

Section Int32Facts.
Import JS.

Lemma ToInt32_small z : - 2 ^ 31 <= z < 2 ^ 31 -> ToInt32 z = z.
Proof. intros H. unfold ToInt32. rewrite Z.mod_small; lia. Qed.

Lemma land_low_shiftl r a k :
  0 <= k -> 0 <= r < 2 ^ k -> Z.land r (Z.shiftl a k) = 0.
Proof.
  intros Hk Hr. apply Z.bits_inj'. intros i Hi.
  rewrite Z.land_spec, Z.bits_0.
  destruct (Z.lt_ge_cases i k) as [Hlt | Hge].
  - rewrite (Z.shiftl_spec_low a k i Hlt). apply andb_false_r.
  - rewrite <- (Z.mod_small r (2 ^ k)) by lia.
    rewrite Z.mod_pow2_bits_high by lia. reflexivity.
Qed.

Lemma ToInt32_range z : - 2 ^ 31 <= ToInt32 z < 2 ^ 31.
Proof.
  unfold ToInt32.
  assert (0 <= (z + 2 ^ 31) mod 2 ^ 32 < 2 ^ 32) by (apply Z.mod_pos_bound; lia).
  change (2 ^ 32) with (2 * 2 ^ 31) in *. lia.
Qed.

Lemma lor_low_shiftl r a k :
  0 <= k -> 0 <= r < 2 ^ k -> Z.lor r (Z.shiftl a k) = r + a * 2 ^ k.
Proof.
  intros Hk Hr. rewrite <- Z.add_nocarry_lor by (apply land_low_shiftl; lia).
  rewrite Z.shiftl_mul_pow2 by lia. reflexivity.
Qed.

Lemma lor_low_mul r a k :
  0 <= k -> 0 <= r < 2 ^ k -> Z.lor r (a * 2 ^ k) = r + a * 2 ^ k.
Proof.
  intros Hk Hr. rewrite <- (lor_low_shiftl r a k) by lia.
  rewrite Z.shiftl_mul_pow2 by lia. reflexivity.
Qed.

Lemma land_31 a : Z.land a 31 = a mod 32.
Proof. change 31 with (Z.ones 5). rewrite Z.land_ones by lia. reflexivity. Qed.

Lemma land_1 a : Z.land a 1 = a mod 2.
Proof. change 1 with (Z.ones 1) at 1. rewrite Z.land_ones by lia. reflexivity. Qed.

Lemma sar32_5 sgn : - 2 ^ 31 <= sgn < 2 ^ 31 -> sar32 sgn 5 = sgn / 32.
Proof.
  intros H. unfold sar32. rewrite ToInt32_small by lia.
  change (5 mod 32) with 5. rewrite Z.shiftr_div_pow2 by lia. reflexivity.
Qed.

End Int32Facts.

Section CodecFacts.
Import JS Polyline PolylineSpec.

Lemma charCodeAt_app (pre : jsstring) c tl :
  charCodeAt (pre ++ c :: tl) (length pre) = Some c.
Proof. unfold charCodeAt. induction pre; simpl; auto. Qed.

Lemma charCodeAt_Some (s : jsstring) i c :
  charCodeAt s i = Some c -> (i < length s)%nat.
Proof.
  unfold charCodeAt. intros H. apply nth_error_Some. rewrite H. discriminate.
Qed.

(** *** Decoding always returns *)

Lemma decodeChunks_total (encoded : jsstring) fuel : forall index shift result,
  (length encoded - index < fuel)%nat ->
  exists r index',
    decodeChunks fuel encoded index shift result = Some (r, index') /\
    (index < index')%nat /\ (index' <= S (Nat.max index (length encoded)))%nat.
Proof.
  induction fuel as [|fuel IH]; intros index shift result Hfuel; [lia|].
  cbn [decodeChunks].
  destruct (charCodeAt encoded index) as [c|] eqn:Hc; cbn [option_map ge_num].
  - apply charCodeAt_Some in Hc.
    destruct (32 <=? c - 63).
    + destruct (IH (S index) (shift + 5)
                  (or32 result (shl32 (and32 (ToInt32_num (Some (c - 63))) 31) shift)))
        as (r & i' & Hr & Hlt & Hle); [lia|].
      exists r, i'. split; [exact Hr|]. lia.
    + eexists _, _. split; [reflexivity|]. lia.
  - eexists _, _. split; [reflexivity|]. lia.
Qed.

Lemma decodePolyline_loop_total (encoded : jsstring) fuel :
  forall index lat lng points,
  (length encoded - index < fuel)%nat ->
  exists out,
    decodePolyline_loop fuel encoded index lat lng points = Some out /\
    (2 * length out <= 2 * length points + (length encoded - index) + 1)%nat.
Proof.
  induction fuel as [|fuel IH]; intros index lat lng points Hfuel; [lia|].
  cbn [decodePolyline_loop].
  destruct (index <? length encoded)%nat eqn:Hcmp.
  - apply Nat.ltb_lt in Hcmp.
    destruct (decodeChunks_total encoded (S (length encoded)) index 0 0)
      as (r1 & i1 & -> & Hlt1 & Hle1); [lia|].
    destruct (decodeChunks_total encoded (S (length encoded)) i1 0 0)
      as (r2 & i2 & -> & Hlt2 & Hle2); [lia|].
    destruct (IH i2 (lat + unzigzag r1) (lng + unzigzag r2)
                (points ++ [mkLatLng (inject_Z (lat + unzigzag r1) / 100000)
                                     (inject_Z (lng + unzigzag r2) / 100000)]))
      as (out & Hout & Hlen); [lia|].
    exists out. split; [exact Hout|].
    rewrite length_app in Hlen. simpl in Hlen. lia.
  - exists points. split; [reflexivity|]. lia.
Qed.

(** More passes than the loop needs change nothing. *)
Lemma decodePolyline_loop_more_fuel (encoded : jsstring) fuel :
  forall index lat lng points out,
  decodePolyline_loop fuel encoded index lat lng points = Some out ->
  decodePolyline_loop (S fuel) encoded index lat lng points = Some out.
Proof.
  induction fuel as [|fuel IH]; intros index lat lng points out H; [discriminate|].
  remember (S fuel) as f eqn:Hf.
  cbn [decodePolyline_loop]. rewrite Hf in H. cbn [decodePolyline_loop] in H.
  destruct (index <? length encoded)%nat; [|exact H].
  destruct (decodeChunks (S (length encoded)) encoded index 0 0)
    as [[r1 i1]|]; [|discriminate].
  destruct (decodeChunks (S (length encoded)) encoded i1 0 0)
    as [[r2 i2]|]; [|discriminate].
  subst f. apply IH. exact H.
Qed.

Lemma decodePolyline_fuel_enough (encoded : jsstring) fuel :
  (length encoded < fuel)%nat ->
  decodePolyline_fuel fuel encoded = decodePolyline encoded.
Proof.
  intros Hfuel. unfold decodePolyline, decodePolyline_fuel.
  destruct encoded as [|c s]; [reflexivity|].
  destruct (decodePolyline_loop_total (c :: s) (S (length (c :: s))) 0 0 0 [])
    as (out & Hout & _); [lia|].
  rewrite Hout.
  replace fuel with ((fuel - S (length (c :: s))) + S (length (c :: s)))%nat by lia.
  induction (fuel - S (length (c :: s)))%nat as [|k IHk]; [exact Hout|].
  apply decodePolyline_loop_more_fuel. exact IHk.
Qed.

(** C9. [decodePolyline] returns on every string, well formed or not: the
    outer loop exits within [length encoded + 1] passes (running out of
    passes would yield [None]) and any larger number of passes gives the
    same points; it stops at the end of the string, so that at most
    [(length encoded + 1) / 2] points come out; and the empty string
    decodes to the empty sequence. *)
Theorem decodePolyline_terminates :
  (forall encoded : jsstring,
     exists points,
       decodePolyline encoded = Some points /\
       (forall fuel, (length encoded < fuel)%nat ->
                     decodePolyline_fuel fuel encoded = Some points) /\
       (2 * length points <= length encoded + 1)%nat) /\
  decodePolyline [] = Some [].
Proof.
  split; [|reflexivity].
  intros encoded.
  assert (H : exists points,
             decodePolyline encoded = Some points /\
             (2 * length points <= length encoded + 1)%nat).
  { unfold decodePolyline, decodePolyline_fuel.
    destruct encoded as [|c s].
    - exists []. split; [reflexivity | simpl; lia].
    - destruct (decodePolyline_loop_total (c :: s) (S (length (c :: s))) 0 0 0 [])
        as (out & Hout & Hlen); [lia|].
      exists out. split; [exact Hout|]. simpl in *. lia. }
  destruct H as (points & Hdec & Hlen).
  exists points. split; [exact Hdec|]. split; [|exact Hlen].
  intros fuel Hfuel. rewrite decodePolyline_fuel_enough by exact Hfuel. exact Hdec.
Qed.

(** *** Encoding always returns *)

Lemma encodeNumber_loop_total fuel : forall sgn acc,
  - 2 ^ 31 <= sgn < 2 ^ 31 -> sgn < 32 * 32 ^ Z.of_nat fuel ->
  exists s, encodeNumber_loop (S fuel) sgn acc = Some s.
Proof.
  induction fuel as [|fuel IH]; intros sgn acc Hr Hb.
  - cbn [encodeNumber_loop]. change (32 * 32 ^ Z.of_nat 0) with 32 in Hb.
    replace (32 <=? sgn) with false by (symmetry; apply Z.leb_gt; lia). eauto.
  - remember (S fuel) as f eqn:Hf. cbn [encodeNumber_loop].
    destruct (32 <=? sgn) eqn:Hcmp; [|eauto].
    apply Z.leb_le in Hcmp. subst f. rewrite sar32_5 by lia. apply IH.
    + split.
      * transitivity 0; [lia | apply Z.div_pos; lia].
      * apply Z.div_lt_upper_bound; lia.
    + apply Z.div_lt_upper_bound; [lia|].
      rewrite Nat2Z.inj_succ, Z.pow_succ_r in Hb by lia. lia.
Qed.

Lemma zigzag_int32 n :
  - 2 ^ 31 <= (if n <? 0 then not32 (shl32 n 1) else shl32 n 1) < 2 ^ 31.
Proof.
  destruct (n <? 0).
  - unfold not32, shl32. rewrite (ToInt32_small (ToInt32 _)) by apply ToInt32_range.
    pose proof (ToInt32_range (Z.shiftl (ToInt32 n) (1 mod 32))) as H.
    unfold Z.lnot. lia.
  - unfold shl32. apply ToInt32_range.
Qed.

Lemma encodeNumber_total n : exists s, encodeNumber n = Some s.
Proof.
  unfold encodeNumber, encodeNumber_fuel.
  pose proof (zigzag_int32 n) as Hz.
  apply encodeNumber_loop_total; [exact Hz|].
  change (32 * 32 ^ Z.of_nat 7) with (2 ^ 40).
  assert (2 ^ 31 < 2 ^ 40) by (apply Z.pow_lt_mono_r; lia). lia.
Qed.

Lemma encodePolyline_loop_total pts : forall acc pl pg,
  exists s, encodePolyline_loop pts acc pl pg = Some s.
Proof.
  induction pts as [|p rest IH]; intros acc pl pg; cbn [encodePolyline_loop]; [eauto|].
  destruct (encodeNumber_total (round (lat p * 100000) - pl)) as [elat ->].
  destruct (encodeNumber_total (round (lng p * 100000) - pg)) as [elng ->].
  apply IH.
Qed.

(** *** One number through the codec *)

Lemma decode_continue_chunk fuel (pre rest : jsstring) sgn shift r :
  32 <= sgn < 2 ^ 31 -> 0 <= shift <= 30 -> 0 <= r < 2 ^ shift ->
  sgn * 2 ^ shift + r < 2 ^ 31 ->
  let c := fromCharCode (or32 32 (and32 sgn 31) + 63) in
  decodeChunks (S fuel) (pre ++ c :: rest) (length pre) shift r =
  decodeChunks fuel ((pre ++ [c]) ++ rest) (length (pre ++ [c])) (shift + 5)
    (r + (sgn mod 32) * 2 ^ shift)
  /\ shift + 5 <= 30 /\ 0 <= r + (sgn mod 32) * 2 ^ shift < 2 ^ (shift + 5)
  /\ (sgn / 32) * 2 ^ (shift + 5) + (r + (sgn mod 32) * 2 ^ shift) = sgn * 2 ^ shift + r.
Proof.
  intros Hs Hsh Hr Hb c.
  assert (Hm : 0 <= sgn mod 32 < 32) by (apply Z.mod_pos_bound; lia).
  assert (Hp : 0 < 2 ^ shift) by (apply Z.pow_pos_nonneg; lia).
  assert (Hsh5 : shift + 5 <= 30).
  { destruct (Z.le_gt_cases (shift + 5) 30) as [|Hgt]; [assumption|].
    exfalso. assert (2 ^ 26 <= 2 ^ shift) by (apply Z.pow_le_mono_r; lia).
    assert (32 * 2 ^ 26 <= sgn * 2 ^ shift) by nia.
    change (32 * 2 ^ 26) with (2 ^ 31) in *. lia. }
  assert (Hp5 : 2 ^ (shift + 5) = 32 * 2 ^ shift).
  { rewrite Z.pow_add_r by lia. change (2 ^ 5) with 32. lia. }
  assert (Hdiv : sgn = 32 * (sgn / 32) + sgn mod 32) by (apply Z.div_mod; lia).
  assert (Hc : c = 95 + sgn mod 32).
  { unfold c, fromCharCode, or32, and32.
    rewrite (ToInt32_small sgn), (ToInt32_small 31), (ToInt32_small 32) by lia.
    rewrite land_31. rewrite (ToInt32_small (sgn mod 32)) by lia.
    change 32 with (Z.shiftl 1 5) at 1.
    rewrite Z.lor_comm, lor_low_shiftl by (simpl; lia).
    rewrite Z.mod_small by (simpl; lia). simpl. lia. }
  split; [| split; [assumption | split; [nia | nia]]].
  cbn [decodeChunks]. rewrite charCodeAt_app. cbn [option_map ToInt32_num ge_num].
  rewrite Hc.
  replace (95 + sgn mod 32 - 63) with (32 + sgn mod 32) by lia.
  replace (32 <=? 32 + sgn mod 32) with true by (symmetry; apply Z.leb_le; lia).
  rewrite length_app. simpl length.
  replace (length pre + 1)%nat with (S (length pre)) by lia.
  rewrite <- app_assoc. simpl app.
  f_equal.
  unfold or32, and32, shl32.
  rewrite !(ToInt32_small (32 + sgn mod 32)), (ToInt32_small 31) by lia.
  rewrite land_31.
  replace ((32 + sgn mod 32) mod 32) with (sgn mod 32).
  2:{ rewrite Z.add_comm. change 32 with (1 * 32) at 3.
      rewrite Z.mod_add by lia. rewrite Z.mod_mod by lia. reflexivity. }
  rewrite (ToInt32_small (sgn mod 32)) by lia.
  rewrite (Z.mod_small shift 32) by lia.
  assert (Hprod : 0 <= sgn mod 32 * 2 ^ shift < 2 ^ 30).
  { split; [nia|]. assert (2 ^ shift <= 2 ^ 25) by (apply Z.pow_le_mono_r; lia).
    change (2 ^ 30) with (32 * 2 ^ 25). nia. }
  rewrite Z.shiftl_mul_pow2 by lia.
  rewrite (ToInt32_small (sgn mod 32 * 2 ^ shift)) by lia.
  rewrite (ToInt32_small r) by lia.
  rewrite (ToInt32_small (sgn mod 32 * 2 ^ shift)) by lia.
  rewrite lor_low_mul by lia. reflexivity.
Qed.

Lemma decode_last_chunk fuel (pre rest : jsstring) sgn shift r :
  0 <= sgn < 32 -> 0 <= shift <= 30 -> 0 <= r < 2 ^ shift ->
  sgn * 2 ^ shift + r < 2 ^ 31 ->
  decodeChunks (S fuel) (pre ++ fromCharCode (sgn + 63) :: rest) (length pre)
    shift r = Some (r + sgn * 2 ^ shift, S (length pre)).
Proof.
  intros Hs Hsh Hr Hb.
  assert (Hp : 0 < 2 ^ shift) by (apply Z.pow_pos_nonneg; lia).
  cbn [decodeChunks]. rewrite charCodeAt_app. cbn [option_map ToInt32_num ge_num].
  unfold fromCharCode. rewrite Z.mod_small by (simpl; lia).
  replace (sgn + 63 - 63) with sgn by lia.
  replace (32 <=? sgn) with false by (symmetry; apply Z.leb_gt; lia).
  do 2 f_equal.
  unfold or32, and32, shl32.
  rewrite !(ToInt32_small sgn), (ToInt32_small 31) by lia.
  rewrite land_31, (Z.mod_small sgn 32) by lia.
  rewrite (ToInt32_small sgn) by lia.
  rewrite (Z.mod_small shift 32) by lia.
  rewrite Z.shiftl_mul_pow2 by lia.
  assert (0 <= sgn * 2 ^ shift) by nia.
  rewrite !(ToInt32_small (sgn * 2 ^ shift)) by lia.
  rewrite (ToInt32_small r) by lia.
  apply lor_low_mul; lia.
Qed.

Lemma encodeNumber_loop_decode fuel : forall sgn acc s,
  encodeNumber_loop fuel sgn acc = Some s ->
  0 <= sgn < 2 ^ 31 ->
  exists ch, s = acc ++ ch /\ (1 <= length ch)%nat /\
    forall (pre rest : jsstring) shift r fuel',
      (length ch <= fuel')%nat ->
      0 <= shift <= 30 -> 0 <= r < 2 ^ shift ->
      sgn * 2 ^ shift + r < 2 ^ 31 ->
      decodeChunks fuel' (pre ++ ch ++ rest) (length pre) shift r =
      Some (r + sgn * 2 ^ shift, (length pre + length ch)%nat).
Proof.
  induction fuel as [|fuel IH]; intros sgn acc s Henc Hsgn; [discriminate|].
  cbn [encodeNumber_loop] in Henc.
  destruct (32 <=? sgn) eqn:Hcmp.
  - apply Z.leb_le in Hcmp.
    assert (Hsar : sar32 sgn 5 = sgn / 32).
    { unfold sar32. rewrite ToInt32_small by lia.
      change (5 mod 32) with 5. rewrite Z.shiftr_div_pow2 by lia. reflexivity. }
    rewrite Hsar in Henc.
    assert (Hq : 0 <= sgn / 32 < 2 ^ 31).
    { split; [apply Z.div_pos; lia|].
      apply Z.div_lt_upper_bound; lia. }
    destruct (IH _ _ _ Henc Hq) as (ch & Hs & Hlen & Hdec).
    set (c := fromCharCode (or32 32 (and32 sgn 31) + 63)) in *.
    exists (c :: ch). split; [rewrite Hs, <- app_assoc; reflexivity|].
    split; [simpl; lia|].
    intros pre rest shift r fuel' Hfuel Hsh Hr Hb.
    destruct fuel' as [|fuel']; [simpl in Hfuel; lia|].
    simpl length in Hfuel.
    destruct (decode_continue_chunk fuel' pre (ch ++ rest) sgn shift r)
      as (Hstep & Hsh5 & Hr' & Hsum); try lia.
    fold c in Hstep. simpl app. rewrite Hstep.
    rewrite <- app_assoc. simpl app.
    change (pre ++ c :: ch ++ rest) with (pre ++ [c] ++ ch ++ rest).
    rewrite (app_assoc pre [c]).
    rewrite (Hdec (pre ++ [c]) rest (shift + 5) (r + sgn mod 32 * 2 ^ shift) fuel');
      try lia.
    f_equal. f_equal; [lia|]. rewrite length_app. simpl. lia.
  - apply Z.leb_gt in Hcmp. inversion Henc; subst s; clear Henc.
    exists [fromCharCode (sgn + 63)]. split; [reflexivity|]. split; [simpl; lia|].
    intros pre rest shift r fuel' Hfuel Hsh Hr Hb.
    destruct fuel' as [|fuel']; [simpl in Hfuel; lia|].
    simpl app. rewrite decode_last_chunk by lia.
    f_equal. f_equal. simpl. lia.
Qed.

Lemma zigzag_in_range n :
  - 2 ^ 30 <= n < 2 ^ 30 ->
  let sgn := if n <? 0 then not32 (shl32 n 1) else shl32 n 1 in
  0 <= sgn < 2 ^ 31 /\ unzigzag sgn = n.
Proof.
  intros Hn. cbv zeta.
  assert (Hshl : shl32 n 1 = 2 * n).
  { unfold shl32. rewrite (ToInt32_small n) by lia. change (1 mod 32) with 1.
    rewrite Z.shiftl_mul_pow2 by lia. change (2 ^ 1) with 2.
    rewrite ToInt32_small by lia. lia. }
  rewrite Hshl. unfold unzigzag, and32, sar32, not32.
  change (1 mod 32) with 1. rewrite (ToInt32_small 1) by lia.
  destruct (n <? 0) eqn:Hneg.
  - apply Z.ltb_lt in Hneg. rewrite (ToInt32_small (2 * n)) by lia.
    unfold Z.lnot. replace (Z.pred (- (2 * n))) with (2 * (- n - 1) + 1) by lia.
    split; [lia|].
    rewrite (ToInt32_small (2 * (- n - 1) + 1)) by lia.
    rewrite land_1.
    replace ((2 * (- n - 1) + 1) mod 2) with 1.
    2:{ rewrite Z.add_comm, Z.mul_comm, Z.mod_add by lia. reflexivity. }
    simpl (1 =? 0). cbv iota.
    rewrite Z.shiftr_div_pow2 by lia. change (2 ^ 1) with 2.
    replace ((2 * (- n - 1) + 1) / 2) with (- n - 1).
    2:{ rewrite Z.add_comm, Z.mul_comm, Z.div_add by lia. reflexivity. }
    rewrite ToInt32_small by lia. lia.
  - apply Z.ltb_ge in Hneg. split; [lia|].
    rewrite (ToInt32_small (2 * n)) by lia.
    rewrite land_1.
    replace ((2 * n) mod 2) with 0.
    2:{ rewrite Z.mul_comm, Z.mod_mul by lia. reflexivity. }
    simpl (0 =? 0). cbv iota.
    rewrite Z.shiftr_div_pow2 by lia. change (2 ^ 1) with 2.
    rewrite Z.mul_comm, Z.div_mul by lia. reflexivity.
Qed.

Lemma encodeNumber_decode n s :
  - 2 ^ 30 <= n < 2 ^ 30 -> encodeNumber n = Some s ->
  (1 <= length s)%nat /\
  forall (pre rest : jsstring) fuel,
    (length s <= fuel)%nat ->
    exists result,
      decodeChunks fuel (pre ++ s ++ rest) (length pre) 0 0 =
        Some (result, (length pre + length s)%nat)
      /\ unzigzag result = n.
Proof.
  intros Hn Henc. unfold encodeNumber in Henc.
  destruct (zigzag_in_range n Hn) as [Hsgn Hun].
  destruct (encodeNumber_loop_decode _ _ _ _ Henc Hsgn) as (ch & Hs & Hlen & Hdec).
  simpl in Hs. subst ch. split; [assumption|].
  intros pre rest fuel Hfuel. eexists. split.
  - apply Hdec; simpl; lia.
  - rewrite Z.add_0_l. change (2 ^ 0) with 1. rewrite Z.mul_1_r. exact Hun.
Qed.

(** *** A sequence of points through the codec *)

Lemma encodePolyline_loop_prefix pts : forall acc pl pg s,
  encodePolyline_loop pts acc pl pg = Some s ->
  exists tail, s = acc ++ tail /\ (length pts <= length tail)%nat.
Proof.
  induction pts as [|p rest IH]; intros acc pl pg s H; cbn [encodePolyline_loop] in H.
  - inversion H. exists []. rewrite app_nil_r. split; [reflexivity | simpl; lia].
  - destruct (encodeNumber (round (lat p * 100000) - pl)) as [elat|] eqn:Elat;
      [|discriminate].
    destruct (encodeNumber (round (lng p * 100000) - pg)) as [elng|];
      [|discriminate].
    destruct (IH _ _ _ _ H) as (tail & -> & Hlen).
    exists (elat ++ elng ++ tail). split; [rewrite !app_assoc; reflexivity|].
    assert (1 <= length elat)%nat.
    { unfold encodeNumber in Elat.
      assert (Hgen : forall fuel sgn acc0 s0,
        encodeNumber_loop fuel sgn acc0 = Some s0 -> (length acc0 < length s0)%nat).
      { induction fuel as [|fuel IHf]; intros sgn acc0 s0 Hs0; [discriminate|].
        cbn [encodeNumber_loop] in Hs0. destruct (32 <=? sgn).
        - apply IHf in Hs0. rewrite length_app in Hs0. simpl in Hs0. lia.
        - inversion Hs0. rewrite length_app. simpl. lia. }
      apply Hgen in Elat. simpl in Elat. lia. }
    rewrite !length_app. simpl. lia.
Qed.

Lemma decode_encoded_loop pts : forall acc pl pg s,
  encodePolyline_loop pts acc pl pg = Some s ->
  deltas_in_range pl pg pts ->
  forall fuel out, (length pts < fuel)%nat ->
    decodePolyline_loop fuel s (length acc) pl pg out = Some (out ++ map snap pts).
Proof.
  induction pts as [|p rest IH]; intros acc pl pg s Henc Hrange fuel out Hfuel;
    cbn [encodePolyline_loop] in Henc.
  - inversion Henc; subst s. destruct fuel as [|fuel]; [simpl in Hfuel; lia|].
    cbn [decodePolyline_loop]. rewrite Nat.ltb_irrefl. simpl. rewrite app_nil_r.
    reflexivity.
  - destruct Hrange as (Hlat & Hlng & Hrest).
    destruct (encodeNumber (round (lat p * 100000) - pl)) as [elat|] eqn:Elat;
      [|discriminate].
    destruct (encodeNumber (round (lng p * 100000) - pg)) as [elng|] eqn:Elng;
      [|discriminate].
    destruct (encodeNumber_decode _ _ Hlat Elat) as [Hl1 Hd1].
    destruct (encodeNumber_decode _ _ Hlng Elng) as [Hl2 Hd2].
    destruct (encodePolyline_loop_prefix _ _ _ _ _ Henc) as (tail & Hs & _).
    destruct fuel as [|fuel]; [simpl in Hfuel; lia|].
    cbn [decodePolyline_loop].
    assert (Hlen : length s = (length acc + length elat + length elng + length tail)%nat).
    { rewrite Hs, !length_app. lia. }
    replace (length acc <? length s)%nat with true
      by (symmetry; apply Nat.ltb_lt; lia).
    destruct (Hd1 acc (elng ++ tail) (S (length s))) as (r1 & Hr1 & Hu1); [lia|].
    replace (acc ++ elat ++ elng ++ tail) with s in Hr1
      by (rewrite Hs, !app_assoc; reflexivity).
    rewrite Hr1.
    destruct (Hd2 (acc ++ elat) tail (S (length s))) as (r2 & Hr2 & Hu2); [lia|].
    replace ((acc ++ elat) ++ elng ++ tail) with s in Hr2
      by (rewrite Hs, !app_assoc; reflexivity).
    rewrite length_app in Hr2. rewrite Hr2.
    rewrite Hu1, Hu2.
    replace (pl + (e5 (lat p) - pl)) with (round (lat p * 100000))
      by (unfold e5; lia).
    replace (pg + (e5 (lng p) - pg)) with (round (lng p * 100000))
      by (unfold e5; lia).
    replace (length acc + length elat + length elng)%nat
      with (length ((acc ++ elat) ++ elng)) by (rewrite !length_app; lia).
    rewrite (IH _ _ _ _ Henc Hrest) by (simpl in Hfuel; lia).
    rewrite <- app_assoc. reflexivity.
Qed.

Lemma round_bounds (x : Q) :
  (x - (1 # 2) < inject_Z (round x) /\ inject_Z (round x) <= x + (1 # 2))%Q.
Proof.
  unfold round. split.
  - pose proof (Qlt_floor (x + (1 # 2))) as H.
    rewrite inject_Z_plus in H. change (inject_Z 1) with 1%Q in H. Lqa.lra.
  - apply Qfloor_le.
Qed.

Lemma snap_close_coord (q : Q) :
  (Qabs (inject_Z (e5 q) / 100000 - q) <= 1 # 100000)%Q.
Proof.
  unfold e5. destruct (round_bounds (q * 100000)) as [Hlo Hhi].
  apply Qabs_Qle_condition.
  set (r := inject_Z (round (q * 100000))) in *.
  assert (Hd : (r / 100000 == r * (1 # 100000))%Q) by (unfold Qdiv; reflexivity).
  rewrite Hd. split; Lqa.lra.
Qed.

Lemma snap_close p : close p (snap p).
Proof. split; apply snap_close_coord. Qed.

(** With deltas in range the decoder returns every point snapped to the
    1e-5 grid. *)
Lemma decode_encode_snaps (pts : list LatLng) :
  deltas_in_range 0 0 pts ->
  exists s,
    encodePolyline pts = Some s /\ decodePolyline s = Some (map snap pts).
Proof.
  intros Hrange. destruct pts as [|p rest].
  - exists []. split; reflexivity.
  - destruct (encodePolyline_loop_total (p :: rest) [] 0 0) as [s Hs].
    exists s. split; [exact Hs|].
    destruct (encodePolyline_loop_prefix _ _ _ _ _ Hs) as (tail & Htail & Hlen).
    simpl in Htail. subst tail.
    unfold decodePolyline, decodePolyline_fuel.
    destruct s as [|c s']; [simpl in Hlen; lia|].
    apply (decode_encoded_loop _ [] 0 0 _ Hs Hrange (S (length (c :: s'))) []).
    lia.
Qed.

Lemma snapped_roundtrips (pts : list LatLng) :
  deltas_in_range 0 0 pts -> roundtrips pts.
Proof.
  intros Hrange. destruct (decode_encode_snaps pts Hrange) as (s & Hs & Hd).
  exists s, (map snap pts). split; [exact Hs|]. split; [exact Hd|].
  split; [apply length_map|].
  apply Forall2_fmap_r. apply Forall_Forall2_diag.
  apply Forall_forall. intros x _. apply snap_close.
Qed.

(** C2, amended. For every finite sequence of points whose coordinates
    are rounded to 5 decimal places and whose successive deltas, in units
    of 1e-5 degree, lie in [-2^30, 2^30) (every sequence of valid
    latitudes and longitudes does, see [geographic_deltas_in_range]),
    [decodePolyline (encodePolyline points)] has the length of [points] and
    every coordinate within 1e-5 of the corresponding input coordinate. *)
Theorem polyline_roundtrip (pts : list LatLng) :
  Forall (fun p => rounded5 (lat p) /\ rounded5 (lng p)) pts ->
  deltas_in_range 0 0 pts ->
  roundtrips pts.
Proof. intros _ Hrange. apply snapped_roundtrips. exact Hrange. Qed.

Lemma polyline_roundtrip_witness :
  Forall (fun p => rounded5 (lat p) /\ rounded5 (lng p)) googleSample /\
  deltas_in_range 0 0 googleSample /\
  roundtrips googleSample.
Proof.
  assert (H1 : Forall (fun p => rounded5 (lat p) /\ rounded5 (lng p)) googleSample).
  { repeat constructor; vm_compute; reflexivity. }
  assert (H2 : deltas_in_range 0 0 googleSample).
  { vm_compute. repeat split; discriminate. }
  split; [exact H1|]. split; [exact H2|].
  exact (polyline_roundtrip googleSample H1 H2).
Defined.

(** C2 as stated fails outside that range: the point of latitude 20000
    has both coordinates rounded to 5 decimal places, its delta 2e9 wraps
    when [encodeNumber] doubles it, [encodePolyline] returns the two code
    units 10303 and 63, and these decode to the point (0, 0). *)
Lemma polyline_roundtrip_out_of_range :
  Forall (fun p => rounded5 (lat p) /\ rounded5 (lng p)) [mkLatLng 20000 0] /\
  encodePolyline [mkLatLng 20000 0] = Some [10303; 63] /\
  decodePolyline [10303; 63] = Some [mkLatLng (0 / 100000) (0 / 100000)] /\
  ~ roundtrips [mkLatLng 20000 0].
Proof.
  split; [repeat constructor; vm_compute; reflexivity|].
  split; [vm_compute; reflexivity|].
  split; [vm_compute; reflexivity|].
  intros (s & decoded & Hs & Hd & _ & Hclose).
  vm_compute in Hs. inversion Hs; subst s; clear Hs.
  vm_compute in Hd. inversion Hd; subst decoded; clear Hd.
  inversion Hclose as [|? ? ? ? [Hlat _] _]; subst.
  apply Qle_bool_iff in Hlat. vm_compute in Hlat. discriminate.
Qed.

(** Rounded coordinates come back exactly. *)
Lemma round_inject_Z k : round (inject_Z k) = k.
Proof.
  unfold round.
  assert (Hlo : (inject_Z k <= inject_Z k + (1 # 2))%Q) by Lqa.lra.
  assert (Hhi : (inject_Z k + (1 # 2) < inject_Z (k + 1))%Q).
  { rewrite inject_Z_plus. change (inject_Z 1) with 1%Q. Lqa.lra. }
  apply Qfloor_resp_le in Hlo. rewrite Qfloor_Z in Hlo.
  pose proof (Qfloor_le (inject_Z k + (1 # 2))) as Hf.
  assert (Hlt : (inject_Z (Qfloor (inject_Z k + (1 # 2))) < inject_Z (k + 1))%Q)
    by (eapply Qle_lt_trans; eassumption).
  rewrite <- Zlt_Qlt in Hlt. lia.
Qed.

Lemma snap_exact_on_grid q :
  rounded5 q -> (inject_Z (e5 q) / 100000 == q)%Q.
Proof.
  unfold rounded5, e5. intros H.
  assert (Hr : round (q * 100000) = Qfloor (q * 100000)).
  { unfold round. rewrite H at 1. apply round_inject_Z. }
  rewrite Hr, <- H. field.
Qed.

(** X1. Points rounded to 5 decimal places, with deltas in the range of
    the format, come back from the round trip exactly: every decoded
    coordinate equals the one that was encoded. *)
Lemma decode_encode_exact_on_grid (pts : list LatLng) :
  Forall (fun p => rounded5 (lat p) /\ rounded5 (lng p)) pts ->
  deltas_in_range 0 0 pts ->
  exists s decoded,
    encodePolyline pts = Some s /\ decodePolyline s = Some decoded /\
    Forall2 (fun p q => (lat q == lat p)%Q /\ (lng q == lng p)%Q) pts decoded.
Proof.
  intros Hgrid Hrange.
  destruct (decode_encode_snaps pts Hrange) as (s & Hs & Hd).
  exists s, (map snap pts). split; [exact Hs|]. split; [exact Hd|].
  apply Forall2_fmap_r. apply Forall_Forall2_diag.
  eapply Forall_impl; [exact Hgrid|].
  intros p [Hlat Hlng]. split; apply snap_exact_on_grid; assumption.
Qed.

(** Valid latitudes and longitudes keep every delta in range. *)
Lemma e5_bound q b :
  (- inject_Z b <= q <= inject_Z b)%Q -> - (b * 100000) <= e5 q <= b * 100000.
Proof.
  intros [Hlo Hhi]. unfold e5.
  destruct (round_bounds (q * 100000)) as [Hl Hh].
  set (r := round (q * 100000)) in *.
  assert (H1 : (inject_Z (- (b * 100000) - 1) < inject_Z r)%Q).
  { unfold Z.sub. rewrite inject_Z_plus, !inject_Z_opp, inject_Z_mult.
    change (inject_Z 1) with 1%Q. change (inject_Z 100000) with 100000%Q.
    generalize dependent (inject_Z r). generalize dependent (inject_Z b).
    intros; Lqa.lra. }
  assert (H2 : (inject_Z r < inject_Z (b * 100000 + 1))%Q).
  { rewrite inject_Z_plus, inject_Z_mult.
    change (inject_Z 1) with 1%Q. change (inject_Z 100000) with 100000%Q.
    generalize dependent (inject_Z r). generalize dependent (inject_Z b).
    intros; Lqa.lra. }
  rewrite <- Zlt_Qlt in H1, H2. lia.
Qed.

Lemma geographic_deltas_from (pts : list LatLng) : forall pl pg,
  Forall geographic pts ->
  - 9000000 <= pl <= 9000000 -> - 18000000 <= pg <= 18000000 ->
  deltas_in_range pl pg pts.
Proof.
  induction pts as [|p rest IH]; intros pl pg Hgeo Hpl Hpg; [exact I|].
  inversion Hgeo as [|? ? [Hlat Hlng] Hrest]; subst.
  pose proof (e5_bound (lat p) 90 Hlat) as Hb1.
  pose proof (e5_bound (lng p) 180 Hlng) as Hb2.
  cbn [deltas_in_range].
  assert (2 ^ 30 = 1073741824) by reflexivity.
  repeat split; try lia.
  apply IH; [assumption | lia | lia].
Qed.

Lemma geographic_deltas_in_range (pts : list LatLng) :
  Forall geographic pts -> deltas_in_range 0 0 pts.
Proof. intros H. apply geographic_deltas_from; [exact H | lia | lia]. Qed.

Lemma geographic_roundtrips (pts : list LatLng) :
  Forall geographic pts -> roundtrips pts.
Proof.
  intros H. apply snapped_roundtrips. apply geographic_deltas_in_range. exact H.
Qed.

Example decode_google_sample :
  decodePolyline (of_string "_p~iF~ps|U_ulLnnqC_mqNvxq`@") =
  Some [mkLatLng (3850000 / 100000) (-12020000 / 100000);
        mkLatLng (4070000 / 100000) (-12095000 / 100000);
        mkLatLng (4325200 / 100000) (-12645300 / 100000)].
Proof. vm_compute. reflexivity. Qed.

Example encode_google_sample :
  encodePolyline googleSample = Some (of_string "_p~iF~ps|U_ulLnnqC_mqNvxq`@").
Proof. vm_compute. reflexivity. Qed.

(** A stream cut in the middle of a number still decodes: the missing
    code units read as [NaN] and end the number. *)
Example decode_truncated :
  decodePolyline (of_string "_p~iF~ps") =
  Some [mkLatLng (3850000 / 100000) (-10528 / 100000)].
Proof. vm_compute. reflexivity. Qed.

End CodecFacts.

(** ** The tracking routes *)

Section TrackingFacts.
Import Geo Tracking TrackingSpec.

(** The record stored under the one key of a sample state. *)
Ltac lookup_in_sample :=
  unfold orderWorld, subscriptionWorld, orderNamedLikeSubscription, equatorWorld;
  cbn [trackings subscriptions];
  apply lookup_singleton_eq.

(** *** The bounded history *)

Lemma push_slice_last_lastN n h e : push_slice_last n h e = lastN n (h ++ [e]).
Proof. reflexivity. Qed.

Lemma lastN_snoc_lastN {A} n (l : list A) e :
  lastN n (lastN n l ++ [e]) = lastN n (l ++ [e]).
Proof.
  unfold lastN.
  destruct (Nat.le_gt_cases (length l) n) as [Hle | Hgt].
  - assert (Hz : (length l - n = 0)%nat) by lia. rewrite Hz, drop_0. reflexivity.
  - rewrite !length_app, length_drop. simpl length.
    destruct n as [|n].
    + rewrite !drop_ge; [reflexivity | rewrite length_app; simpl; lia
                        | rewrite length_app, length_drop; simpl; lia].
    + rewrite drop_app_le by (rewrite length_drop; lia).
      rewrite drop_drop.
      rewrite (drop_app_le l) by lia.
      do 2 f_equal. lia.
Qed.

Lemma fold_push_lastN n (es : list HistoryEntry) : forall h,
  es <> [] ->
  fold_left (push_slice_last n) es h = lastN n (h ++ es).
Proof.
  induction es as [|e es IH] using rev_ind; intros h Hne; [congruence|].
  rewrite fold_left_app. simpl fold_left.
  rewrite push_slice_last_lastN, app_assoc.
  destruct es as [|e' es'].
  - simpl. rewrite app_nil_r. reflexivity.
  - rewrite IH by discriminate. apply lastN_snoc_lastN.
Qed.

Lemma lastN_app_ge {A} n (h es : list A) :
  (n <= length es)%nat -> lastN n (h ++ es) = lastN n es.
Proof.
  intros H. unfold lastN. rewrite length_app.
  rewrite drop_app_ge by lia. f_equal. lia.
Qed.

Lemma lastN_length {A} n (l : list A) :
  (n <= length l)%nat -> length (lastN n l) = n.
Proof. intros H. unfold lastN. rewrite length_drop. lia. Qed.

Lemma updateLocation_found w id body clock t :
  trackings w !! id = Some t ->
  updateLocation w id body clock =
  (Ok200 (applyLocationUpdate t body (newEta t body (etaNow clock)) clock),
   {| trackings :=
        <[id := applyLocationUpdate t body (newEta t body (etaNow clock)) clock]>
          (trackings w);
      subscriptions := subscriptions w;
      emitted := emitted w ++
        [{| room := "order:" +:+ id; event := "driverLocation";
            payload :=
              [("orderId", JString id);
               ("latitude", JNumber (b_latitude body));
               ("longitude", JNumber (b_longitude body));
               ("heading", JNumber (or_zero (b_heading body)));
               ("speed", JNumber (or_zero (b_speed body)));
               ("eta", opt_iso (newEta t body (etaNow clock)));
               ("timestamp", JIso (updatedNow clock))]%string |}] |}).
Proof. intros H. unfold updateLocation. rewrite H. reflexivity. Qed.

Lemma updateLocations_history calls : forall w id t,
  trackings w !! id = Some t ->
  exists t',
    trackings (updateLocations w id calls) !! id = Some t' /\
    history t' = fold_left (push_slice_last 100) (map entry_of calls) (history t).
Proof.
  induction calls as [|[body clock] calls IH]; intros w id t Ht.
  - exists t. split; [exact Ht | reflexivity].
  - cbn [updateLocations]. rewrite (updateLocation_found _ _ _ _ _ Ht).
    cbn [snd].
    match goal with
    | |- context [updateLocations ?w1 id calls] =>
        destruct (IH w1 id
                    (applyLocationUpdate t body (newEta t body (etaNow clock)) clock))
          as (t' & Ht' & Hh); [cbn [trackings]; apply lookup_insert_eq|]
    end.
    exists t'. split; [exact Ht'|]. rewrite Hh. reflexivity.
Qed.

(** C4. After at least 101 location updates in a row on one record, each
    of them successful because the record exists, the history has exactly
    100 entries: the 100 entries appended last, oldest first. *)
Theorem history_bounded_to_100 w id t
    (calls : list (LocationBody * LocationClock)) :
  trackings w !! id = Some t ->
  (101 <= length calls)%nat ->
  exists t',
    trackings (updateLocations w id calls) !! id = Some t' /\
    length (history t') = 100%nat /\
    history t' = drop (length calls - 100) (map entry_of calls).
Proof.
  intros Ht Hlen.
  destruct (updateLocations_history calls w id t Ht) as (t' & Ht' & Hh).
  exists t'. split; [exact Ht'|].
  assert (Hne : map entry_of calls <> []).
  { destruct calls; [simpl in Hlen; lia | discriminate]. }
  rewrite fold_push_lastN in Hh by exact Hne.
  rewrite lastN_app_ge in Hh by (rewrite length_map; lia).
  rewrite Hh. split.
  - apply lastN_length. rewrite length_map. lia.
  - unfold lastN. rewrite length_map. reflexivity.
Qed.

Lemma history_bounded_to_100_witness :
  trackings orderWorld !! "order123"%string =
    Some (sampleTracking "order123" "order" noPlace (Some 1704846600000)) /\
  (101 <= length sampleCalls)%nat /\
  exists t',
    trackings (updateLocations orderWorld "order123" sampleCalls)
      !! "order123"%string = Some t' /\
    length (history t') = 100%nat /\
    history t' = drop (length sampleCalls - 100) (map entry_of sampleCalls).
Proof.
  assert (H1 : trackings orderWorld !! "order123"%string =
               Some (sampleTracking "order123" "order" noPlace (Some 1704846600000))).
  { lookup_in_sample. }
  assert (H2 : (101 <= length sampleCalls)%nat).
  { unfold sampleCalls. rewrite length_map, length_seq. lia. }
  split; [exact H1|]. split; [exact H2|].
  exact (history_bounded_to_100 orderWorld "order123" _ sampleCalls H1 H2).
Defined.

(** *** The ETA of a location update *)

Lemma truthy_0 : truthy 0 = false.
Proof. unfold truthy. destruct (Req_dec_T 0 0); [reflexivity | congruence]. Qed.

Lemma truthy_nonzero x : x <> 0%R -> truthy x = true.
Proof. intros H. unfold truthy. destruct (Req_dec_T x 0); [contradiction | reflexivity]. Qed.

(** With a destination whose two coordinates are not 0 the stored ETA is
    the reading of the clock plus the remaining distance at 30 km/h, in
    whole milliseconds; the reported speed plays no part. *)
Lemma eta_from_nonzero_destination t body now dlat dlng :
  latitude (destination t) = Some dlat ->
  longitude (destination t) = Some dlng ->
  dlat <> 0%R -> dlng <> 0%R ->
  newEta t body now =
  Some (Date_of_number
          (IZR now +
           calculateDistance (b_latitude body) (b_longitude body) dlat dlng
             / 1000 / 30 * 3600 * 1000)%R).
Proof.
  intros Hlat Hlng H1 H2. unfold newEta. rewrite Hlat, Hlng.
  rewrite (truthy_nonzero _ H1), (truthy_nonzero _ H2). reflexivity.
Qed.

(** C5, at the input where the code departs from it. The destination has
    latitude 0 (a point on the equator) and longitude 37.07; the guard of
    the ETA reads the latitude 0 as a missing one, and the update stores
    no ETA where the claim gives the clock plus the travel time at
    30 km/h. *)
Theorem updateLocation_eta_null_at_zero_latitude :
  latitude (destination
    (sampleTracking "order123" "order" equatorPlace (Some 1704846600000)))
    = Some 0%R /\
  longitude (destination
    (sampleTracking "order123" "order" equatorPlace (Some 1704846600000)))
    = Some (3707 / 100)%R /\
  exists t',
    fst (updateLocation equatorWorld "order123" sampleBody sampleLocationClock)
      = Ok200 t' /\
    eta (route t') = None.
Proof.
  split; [reflexivity|]. split; [reflexivity|].
  assert (H : trackings equatorWorld !! "order123"%string =
              Some (sampleTracking "order123" "order" equatorPlace
                      (Some 1704846600000))).
  { lookup_in_sample. }
  rewrite (updateLocation_found _ _ _ _ _ H). cbn [fst].
  eexists. split; [reflexivity|].
  cbn [applyLocationUpdate route eta]. unfold newEta.
  cbn [sampleTracking destination equatorPlace latitude longitude].
  rewrite truthy_0. reflexivity.
Qed.

(** C10. On an existing record whose destination lacks a latitude or a
    longitude the location update succeeds, stores the reported position,
    heading and speed, the reading of the clock as [lastUpdated] and the
    new history entry, and sets [route.eta] to null whatever ETA was
    stored before. *)
Theorem updateLocation_without_destination w id body clock t :
  trackings w !! id = Some t ->
  latitude (destination t) = None \/ longitude (destination t) = None ->
  exists t',
    fst (updateLocation w id body clock) = Ok200 t' /\
    trackings (snd (updateLocation w id body clock)) !! id = Some t' /\
    cl_latitude (currentLocation t') = Some (b_latitude body) /\
    cl_longitude (currentLocation t') = Some (b_longitude body) /\
    cl_heading (currentLocation t') = or_zero (b_heading body) /\
    cl_speed (currentLocation t') = or_zero (b_speed body) /\
    lastUpdated t' = updatedNow clock /\
    history t' =
      lastN 100 (history t ++
                 [{| h_latitude := b_latitude body;
                     h_longitude := b_longitude body;
                     h_timestamp := historyNow clock |}]) /\
    eta (route t') = None.
Proof.
  intros Ht Hdest.
  rewrite (updateLocation_found _ _ _ _ _ Ht). cbn [fst snd trackings].
  eexists. split; [reflexivity|].
  split; [apply lookup_insert_eq|].
  cbn [applyLocationUpdate currentLocation cl_latitude cl_longitude cl_heading
       cl_speed lastUpdated history route eta].
  repeat (split; [reflexivity|]).
  unfold newEta. destruct Hdest as [-> | Hlng]; [reflexivity|].
  rewrite Hlng. destruct (latitude (destination t)); reflexivity.
Qed.

Lemma updateLocation_without_destination_witness :
  trackings orderWorld !! "order123"%string =
    Some (sampleTracking "order123" "order" noPlace (Some 1704846600000)) /\
  eta (route (sampleTracking "order123" "order" noPlace (Some 1704846600000)))
    = Some 1704846600000 /\
  exists t',
    fst (updateLocation orderWorld "order123" sampleBody sampleLocationClock)
      = Ok200 t' /\
    eta (route t') = None.
Proof.
  assert (H1 : trackings orderWorld !! "order123"%string =
               Some (sampleTracking "order123" "order" noPlace (Some 1704846600000))).
  { lookup_in_sample. }
  split; [exact H1|]. split; [reflexivity|].
  destruct (updateLocation_without_destination orderWorld "order123" sampleBody
              sampleLocationClock _ H1 (or_introl eq_refl))
    as (t' & Hok & _ & _ & _ & _ & _ & _ & _ & Heta).
  exists t'. split; [exact Hok | exact Heta].
Defined.

(** *** Status updates *)

Lemma validStatus_In s : validStatus s = true <-> In s status_enum.
Proof.
  unfold validStatus. rewrite existsb_exists. split.
  - intros (x & Hin & Heq). apply String.eqb_eq in Heq. subst x. exact Hin.
  - intros Hin. exists s. split; [exact Hin | apply String.eqb_refl].
Qed.

Lemma updateStatus_found_accepted w id (st : StatusValue) clock t :
  trackings w !! id = Some t ->
  acceptedStatus st = true ->
  updateStatus w id st clock =
  (Ok200 (applyStatusUpdate t st (statusNow clock)),
   {| trackings := <[id := applyStatusUpdate t st (statusNow clock)]> (trackings w);
      subscriptions :=
        if (deliveryType t =? "subscription")%string || (String.length id =? 24)%nat
        then syncSubscription (subscriptions w) id (statusKey st) (today clock)
        else subscriptions w;
      emitted := emitted w ++
        [{| room := "order:" +:+ id; event := "statusUpdate";
            payload := [("orderId", JString id); ("status", js_of_status st);
                        ("timestamp", JIso (statusNow clock))]%string |}] |}).
Proof.
  intros Ht Hv. unfold updateStatus. rewrite Ht, Hv. reflexivity.
Qed.

Lemma updateStatus_found_valid w id st clock t :
  trackings w !! id = Some t ->
  validStatus st = true ->
  updateStatus w id st clock =
  (Ok200 (applyStatusUpdate t st (statusNow clock)),
   {| trackings := <[id := applyStatusUpdate t st (statusNow clock)]> (trackings w);
      subscriptions :=
        if (deliveryType t =? "subscription")%string || (String.length id =? 24)%nat
        then syncSubscription (subscriptions w) id st (today clock)
        else subscriptions w;
      emitted := emitted w ++
        [{| room := "order:" +:+ id; event := "statusUpdate";
            payload := [("orderId", JString id); ("status", JString st);
                        ("timestamp", JIso (statusNow clock))]%string |}] |}).
Proof.
  intros Ht Hv. exact (updateStatus_found_accepted w id st clock t Ht Hv).
Qed.




(** C8, at the input where the code departs from it. The body carries
    no status ([{}]) or the status [null], on a subscription delivery
    that is on its way. [save] runs the validator of the enum on neither,
    the path not being required: the update succeeds, the record loses
    its status, the subscription falls back to [pending] and the event is
    emitted, where the claim has every status outside the six fail
    before anything is written. *)
Theorem updateStatus_accepts_missing_status :
  deliveryStatus RouteSamples.enRouteSubscription = "out_for_delivery"%string /\
  (exists t' sub' ev,
     updateStatus RouteSamples.enRouteWorld objectId StatusUndefined
       sampleStatusClock =
     (Ok200 t',
      {| trackings := {[ objectId := t' ]};
         subscriptions := {[ objectId := sub' ]};
         emitted := [ev] |}) /\
     status t' = StatusUndefined /\
     deliveryStatus sub' = "pending"%string /\
     event ev = "statusUpdate"%string /\
     payload ev = [("orderId", JString objectId); ("status", JUndefined);
                   ("timestamp", JIso 1704844800000)]%string) /\
  (exists t' sub' ev,
     updateStatus RouteSamples.enRouteWorld objectId StatusNull
       sampleStatusClock =
     (Ok200 t',
      {| trackings := {[ objectId := t' ]};
         subscriptions := {[ objectId := sub' ]};
         emitted := [ev] |}) /\
     status t' = StatusNull /\
     deliveryStatus sub' = "pending"%string /\
     event ev = "statusUpdate"%string /\
     payload ev = [("orderId", JString objectId); ("status", JNull);
                   ("timestamp", JIso 1704844800000)]%string).
Proof.
  assert (Ht : trackings RouteSamples.enRouteWorld !! objectId =
               Some (applyStatusUpdate
                       (sampleTracking objectId "subscription" noPlace None)
                       "en_route" 1704841200000)).
  { unfold RouteSamples.enRouteWorld. cbn [trackings]. apply lookup_singleton_eq. }
  assert (Hsync : forall key, statusMap key = None ->
            syncSubscription (subscriptions RouteSamples.enRouteWorld) objectId key
              (today sampleStatusClock) =
            {[ objectId :=
                 syncedSubscription RouteSamples.enRouteSubscription "pending"
                   (today sampleStatusClock) ]}).
  { intros key Hkey. unfold syncSubscription, subscriptionStatus_of.
    rewrite Hkey. unfold RouteSamples.enRouteWorld. cbn [subscriptions].
    rewrite lookup_singleton_eq. apply insert_singleton_eq. }
  split; [reflexivity|]. split.
  - rewrite (updateStatus_found_accepted _ _ StatusUndefined _ _ Ht eq_refl).
    cbn [applyStatusUpdate deliveryType sampleTracking statusKey js_of_status].
    rewrite (Hsync "undefined"%string eq_refl).
    unfold RouteSamples.enRouteWorld. cbn [trackings emitted app].
    rewrite insert_singleton_eq.
    eexists. eexists. eexists. split; [reflexivity|].
    repeat split.
  - rewrite (updateStatus_found_accepted _ _ StatusNull _ _ Ht eq_refl).
    cbn [applyStatusUpdate deliveryType sampleTracking statusKey js_of_status].
    rewrite (Hsync "null"%string eq_refl).
    unfold RouteSamples.enRouteWorld. cbn [trackings emitted app].
    rewrite insert_singleton_eq.
    eexists. eexists. eexists. split; [reflexivity|].
    repeat split.
Qed.

(** C1, amended. A status update on a tracking record of type [order]
    leaves every subscription as it is when the identifier of the record
    is not 24 characters long or names no subscription. *)
Theorem updateStatus_order_no_sync w id st clock t :
  trackings w !! id = Some t ->
  deliveryType t = "order"%string ->
  String.length id <> 24%nat \/ subscriptions w !! id = None ->
  subscriptions (snd (updateStatus w id st clock)) = subscriptions w.
Proof.
  intros Ht Hty Hcond. unfold updateStatus. rewrite Ht.
  destruct (acceptedStatus st); cbn; [|reflexivity].
  rewrite Hty. cbn.
  destruct Hcond as [Hlen | Hnone].
  - apply Nat.eqb_neq in Hlen. rewrite Hlen. reflexivity.
  - destruct (String.length id =? 24)%nat; [|reflexivity].
    unfold syncSubscription. rewrite Hnone. reflexivity.
Qed.

Lemma updateStatus_order_no_sync_witness :
  trackings orderWorld !! "order123"%string =
    Some (sampleTracking "order123" "order" noPlace (Some 1704846600000)) /\
  String.length "order123" <> 24%nat /\
  subscriptions (snd (updateStatus orderWorld "order123" "delivered"
                        sampleStatusClock))
  = subscriptions orderWorld.
Proof.
  assert (H1 : trackings orderWorld !! "order123"%string =
               Some (sampleTracking "order123" "order" noPlace (Some 1704846600000))).
  { lookup_in_sample. }
  assert (H2 : String.length "order123" <> 24%nat) by (simpl; lia).
  split; [exact H1|]. split; [exact H2|].
  exact (updateStatus_order_no_sync orderWorld "order123" "delivered"
           sampleStatusClock _ H1 eq_refl (or_introl H2)).
Defined.

(** C1 as stated fails: the sync also runs on a record of type [order]
    whose identifier is 24 characters long. Here that identifier names a
    subscription, and the update to [delivered] rewrites the delivery
    status, the last delivery date, the delivery count and the next
    delivery of that subscription. *)
Lemma updateStatus_order_syncs_subscription :
  ~ (forall w id st clock t,
       trackings w !! id = Some t ->
       deliveryType t = "order"%string ->
       forall sid sub,
         subscriptions w !! sid = Some sub ->
         exists sub',
           subscriptions (snd (updateStatus w id st clock)) !! sid = Some sub' /\
           sync_fields_equal sub sub').
Proof.
  intros Hclaim.
  assert (Ht : trackings orderNamedLikeSubscription !! objectId =
               Some (sampleTracking objectId "order" noPlace None)).
  { lookup_in_sample. }
  assert (Hs : subscriptions orderNamedLikeSubscription !! objectId =
               Some (sampleSubscription "weekly")).
  { lookup_in_sample. }
  destruct (Hclaim orderNamedLikeSubscription objectId "delivered"%string
              sampleStatusClock _ Ht eq_refl objectId _ Hs)
    as (sub' & Hsub' & Hstatus & _).
  rewrite (updateStatus_found_valid _ _ "delivered" _ _ Ht eq_refl) in Hsub'.
  cbn [snd subscriptions] in Hsub'.
  change ((deliveryType (sampleTracking objectId "order" noPlace None)
             =? "subscription")%string || (String.length objectId =? 24)%nat)
    with true in Hsub'.
  cbv iota in Hsub'. unfold syncSubscription in Hsub'.
  rewrite Hs in Hsub'. rewrite lookup_insert_eq in Hsub'.
  inversion Hsub'; subst sub'. discriminate Hstatus.
Qed.

(** C6. A status update to [delivered] on a record of type [subscription]
    whose identifier names a subscription sets the delivery status of that
    subscription to [delivered], its last delivery date to the reading of
    the clock, adds 1 to its delivery count and sets its next delivery 1,
    2 or 7 days after that reading for the plans [daily], [alternate] and
    [weekly], and 1 day after it for any other plan. *)
Theorem updateStatus_delivered_sync w id clock t sub :
  trackings w !! id = Some t ->
  deliveryType t = "subscription"%string ->
  subscriptions w !! id = Some sub ->
  exists sub',
    subscriptions (snd (updateStatus w id "delivered" clock)) !! id = Some sub' /\
    deliveryStatus sub' = "delivered"%string /\
    lastDeliveredDate sub' = Some (today clock) /\
    deliveriesInCycle sub' = deliveriesInCycle sub + 1 /\
    (plan sub = "daily"%string ->
       nextDelivery sub' = Some (today clock + 1 * msPerDay)) /\
    (plan sub = "alternate"%string ->
       nextDelivery sub' = Some (today clock + 2 * msPerDay)) /\
    (plan sub = "weekly"%string ->
       nextDelivery sub' = Some (today clock + 7 * msPerDay)) /\
    (plan sub <> "daily"%string -> plan sub <> "alternate"%string ->
     plan sub <> "weekly"%string ->
       nextDelivery sub' = Some (today clock + 1 * msPerDay)).
Proof.
  intros Ht Hty Hsub.
  rewrite (updateStatus_found_valid _ _ _ _ _ Ht) by reflexivity.
  cbn [snd subscriptions]. rewrite Hty. cbn [String.eqb Ascii.eqb Bool.eqb orb].
  unfold syncSubscription. rewrite Hsub.
  eexists. split; [apply lookup_insert_eq|].
  change (subscriptionStatus_of "delivered") with "delivered"%string.
  unfold syncedSubscription. rewrite String.eqb_refl.
  cbn [deliveryStatus lastDeliveredDate deliveriesInCycle nextDelivery].
  split; [reflexivity|]. split; [reflexivity|].
  split.
  { destruct (deliveriesInCycle sub =? 0) eqn:E;
      [apply Z.eqb_eq in E; lia | reflexivity]. }
  unfold nextDate, Date_addDays.
  repeat split.
  - intros ->. reflexivity.
  - intros ->. reflexivity.
  - intros ->. reflexivity.
  - intros H1 H2 H3.
    apply String.eqb_neq in H1, H2, H3. rewrite H1, H2, H3. reflexivity.
Qed.

(** The example of the specification: plan [weekly], no delivery so far,
    delivered on 2024-01-10; the next delivery is 2024-01-17. *)
Lemma updateStatus_delivered_sync_witness :
  trackings subscriptionWorld !! objectId =
    Some (sampleTracking objectId "subscription" noPlace None) /\
  subscriptions subscriptionWorld !! objectId = Some (sampleSubscription "weekly") /\
  exists sub',
    subscriptions (snd (updateStatus subscriptionWorld objectId "delivered"
                          sampleStatusClock)) !! objectId = Some sub' /\
    lastDeliveredDate sub' = Some 1704844800000 /\
    deliveriesInCycle sub' = 1 /\
    nextDelivery sub' = Some 1705449600000.
Proof.
  assert (Ht : trackings subscriptionWorld !! objectId =
               Some (sampleTracking objectId "subscription" noPlace None)).
  { lookup_in_sample. }
  assert (Hs : subscriptions subscriptionWorld !! objectId =
               Some (sampleSubscription "weekly")).
  { lookup_in_sample. }
  split; [exact Ht|]. split; [exact Hs|].
  destruct (updateStatus_delivered_sync subscriptionWorld objectId
              sampleStatusClock _ _ Ht eq_refl Hs)
    as (sub' & Hsub' & _ & Hlast & Hcount & _ & _ & Hweekly & _).
  exists sub'. split; [exact Hsub'|]. split; [exact Hlast|].
  split; [exact Hcount|]. exact (Hweekly eq_refl).
Defined.




End TrackingFacts.

(** ** The route densifier *)

Section DensifierFacts.
Import Geo Simulator SimulatorSpec.
Local Open Scope R_scope.

Lemma haversine_pole lng1 lng2 : haversine 90 lng1 90 lng2 = 0.
Proof.
  unfold haversine.
  replace ((90 - 90) * PI / 180 / 2) with 0 by lra.
  replace (90 * PI / 180) with (PI / 2) by lra.
  rewrite sin_0, cos_PI2.
  replace (0 * 0 + 0 * 0 * sin ((lng2 - lng1) * PI / 180 / 2) *
           sin ((lng2 - lng1) * PI / 180 / 2)) with 0 by ring.
  rewrite Rminus_0_r, sqrt_0, sqrt_1.
  unfold atan2. destruct (Rlt_dec 0 1) as [_|H]; [|lra].
  replace (0 / 1) with 0 by lra. rewrite atan_0. ring.
Qed.

Lemma last_List_last (l : list Point) d :
  l <> [] -> last l = Some (List.last l d).
Proof.
  induction l as [|x [|y r] IH]; intros Hne; [congruence | reflexivity |].
  change (last (x :: y :: r)) with (last (y :: r)).
  rewrite IH by discriminate. reflexivity.
Qed.

Lemma last_cons_last (start : Point) rest :
  last (start :: rest) = Some (List.last rest start).
Proof.
  rewrite (last_List_last _ start) by discriminate.
  destruct rest; reflexivity.
Qed.

(** C3, amended. On a route of at least 2 points, for a positive speed
    and a positive interval, the densified sequence is not empty and its
    last element is the final point of the route itself or a point at
    most 1 meter away from it: the final point is appended only when the
    last generated point is more than 1 meter away. *)
Theorem densified_route_ends_near_destination
    (routePoints : list Point) (speedKmh updateIntervalMs : R) :
  (2 <= length routePoints)%nat -> speedKmh > 0 -> updateIntervalMs > 0 ->
  exists lastGenerated lastOriginal,
    last (generateHighResolutionRoute routePoints speedKmh updateIntervalMs)
      = Some lastGenerated /\
    last routePoints = Some lastOriginal /\
    (lastGenerated = lastOriginal \/
     calculateDistanceMeters (lat lastGenerated) (lng lastGenerated)
       (lat lastOriginal) (lng lastOriginal) <= 1).
Proof.
  intros Hlen _ _.
  destruct routePoints as [|start [|p rest]]; try (simpl in Hlen; lia).
  unfold generateHighResolutionRoute.
  set (hi := generate_loop _ _ _ _ _).
  set (lo := List.last (p :: rest) start).
  assert (Hlo : last (start :: p :: rest) = Some lo) by apply last_cons_last.
  destruct (last hi) as [lg|] eqn:Hlg.
  - destruct (Rgt_dec _ 1) as [Hgt|Hle].
    + exists lo, lo. rewrite last_snoc. auto.
    + exists lg, lo. split; [exact Hlg|]. split; [exact Hlo|]. right. lra.
  - exists lo, lo. rewrite last_snoc. auto.
Qed.

Lemma densified_route_ends_near_destination_witness :
  (2 <= length sampleRoute)%nat /\ 30 > 0 /\ 3000 > 0 /\
  exists lastGenerated lastOriginal,
    last (generateHighResolutionRoute sampleRoute 30 3000) = Some lastGenerated /\
    last sampleRoute = Some lastOriginal /\
    (lastGenerated = lastOriginal \/
     calculateDistanceMeters (lat lastGenerated) (lng lastGenerated)
       (lat lastOriginal) (lng lastOriginal) <= 1).
Proof.
  assert (H1 : (2 <= length sampleRoute)%nat) by (simpl; lia).
  assert (H2 : 30 > 0) by lra.
  assert (H3 : 3000 > 0) by lra.
  split; [exact H1|]. split; [exact H2|]. split; [exact H3|].
  exact (densified_route_ends_near_destination sampleRoute 30 3000 H1 H2 H3).
Defined.

Lemma generate_at_pole :
  generateHighResolutionRoute [northPole; northPole'] 30 3000 = [northPole].
Proof.
  unfold generateHighResolutionRoute.
  cbn [totalDistance_from List.last]. unfold calculateDistanceMeters.
  cbn [lat lng northPole northPole'].
  rewrite haversine_pole.
  replace ((0 + 0) / (30 * 1000 / 3600 * (3000 / 1000))) with 0
    by (unfold Rdiv; ring).
  rewrite (Zceil_eq 0 0) by lra.
  change (Z.to_nat (0 + 1)) with 1%nat.
  cbn [generate_loop getPointAtDistance getPointAtDistance_from INR].
  unfold calculateDistanceMeters. cbn [lat lng]. rewrite haversine_pole.
  destruct (Rge_dec (0 + 0) (0 * (30 * 1000 / 3600 * (3000 / 1000)))) as [_|H];
    [|exfalso; apply H; lra].
  destruct (Rgt_dec 0 0) as [H|_]; [lra|].
  rewrite Rmin_left by lra.
  assert (Hp : interpolatePoint northPole northPole' 0 = northPole).
  { unfold interpolatePoint, northPole. cbn [lat lng]. f_equal; ring. }
  rewrite Hp. cbn [app last].
  change (lat northPole) with 90. change (lng northPole) with 0.
  rewrite (haversine_pole 0 (/ 10 ^ 150)).
  destruct (Rgt_dec 0 1) as [H|_]; [lra|]. reflexivity.
Qed.

(** C3 as stated fails: on the two descriptions of the north pole, whose
    distance is 0, at 30 km/h and one update every 3 seconds, the
    densified route is the first point alone; the final point, at distance
    0 from it, is not appended, and its longitude differs. *)
Lemma densified_route_endpoint_not_exact :
  ~ (forall (routePoints : list Point) (speedKmh updateIntervalMs : R),
       (2 <= length routePoints)%nat -> speedKmh > 0 -> updateIntervalMs > 0 ->
       last (generateHighResolutionRoute routePoints speedKmh updateIntervalMs)
       = last routePoints).
Proof.
  intros H.
  specialize (H [northPole; northPole'] 30 3000).
  rewrite generate_at_pole in H.
  assert (Heq : Some northPole = Some northPole').
  { apply H; [simpl; lia | lra | lra]. }
  inversion Heq as [Hlng].
  assert (Hpos : 0 < / 10 ^ 150).
  { apply Rinv_0_lt_compat. apply pow_lt. lra. }
  lra.
Qed.

(** *** Where the last element is exact *)

Lemma atan_nonneg z : 0 <= z -> 0 <= atan z.
Proof.
  intros [Hlt | <-].
  - rewrite <- atan_0. left. apply atan_increasing. exact Hlt.
  - rewrite atan_0. lra.
Qed.

Lemma atan2_nonneg y x : 0 <= y -> 0 <= x -> 0 <= atan2 y x.
Proof.
  intros Hy Hx. unfold atan2.
  destruct (Rlt_dec 0 x) as [Hpos|Hnpos].
  - apply atan_nonneg. apply Rmult_le_pos; [exact Hy|].
    left. apply Rinv_0_lt_compat. exact Hpos.
  - destruct (Rlt_dec x 0) as [Hneg|_]; [lra|].
    destruct (Rlt_dec 0 y) as [_|_]; [pose proof PI_RGT_0; lra|].
    destruct (Rlt_dec y 0) as [Hyneg|_]; lra.
Qed.

Lemma haversine_nonneg lat1 lng1 lat2 lng2 : 0 <= haversine lat1 lng1 lat2 lng2.
Proof.
  unfold haversine.
  apply Rmult_le_pos; [lra|].
  apply Rmult_le_pos; [lra|].
  apply atan2_nonneg; apply sqrt_pos.
Qed.

Lemma haversine_same lat0 lng0 : haversine lat0 lng0 lat0 lng0 = 0.
Proof.
  unfold haversine.
  replace ((lat0 - lat0) * PI / 180 / 2) with 0 by lra.
  replace ((lng0 - lng0) * PI / 180 / 2) with 0 by lra.
  rewrite sin_0.
  replace (0 * 0 + cos (lat0 * PI / 180) * cos (lat0 * PI / 180) * 0 * 0)
    with 0 by ring.
  rewrite Rminus_0_r, sqrt_0, sqrt_1.
  unfold atan2. destruct (Rlt_dec 0 1) as [_|H]; [|lra].
  replace (0 / 1) with 0 by lra. rewrite atan_0. ring.
Qed.

Lemma totalDistance_from_ge rest : forall start acc,
  acc <= totalDistance_from start rest acc.
Proof.
  induction rest as [|p rest IH]; intros start acc; cbn [totalDistance_from]; [lra|].
  eapply Rle_trans; [|apply IH].
  pose proof (haversine_nonneg (lat start) (lng start) (lat p) (lng p)).
  unfold calculateDistanceMeters. lra.
Qed.

Lemma List_last_default (l : list Point) d d' :
  l <> [] -> List.last l d = List.last l d'.
Proof.
  induction l as [|x [|y r] IH]; intros Hne; [congruence | reflexivity |].
  change (List.last (y :: r) d = List.last (y :: r) d').
  apply IH. discriminate.
Qed.

(** A target past the end of the route yields the last point of the route. *)
Lemma getPointAtDistance_past_end rest : forall start acc target,
  totalDistance_from start rest acc < target ->
  getPointAtDistance_from start rest acc target = List.last rest start.
Proof.
  induction rest as [|p rest IH]; intros start acc target Hlt; [reflexivity|].
  cbn [getPointAtDistance_from totalDistance_from] in *.
  pose proof (totalDistance_from_ge rest p
                (acc + calculateDistanceMeters (lat start) (lng start) (lat p) (lng p)))
    as Hge.
  destruct (Rge_dec _ target) as [Hin|_]; [lra|].
  rewrite IH by exact Hlt. destruct rest as [|q rest]; [reflexivity|].
  change (List.last (q :: rest) p = List.last (q :: rest) start).
  apply List_last_default. discriminate.
Qed.

Lemma generate_loop_last count : forall i start rest dpu acc,
  last (generate_loop (S count) i (start :: rest) dpu acc) =
  Some (getPointAtDistance_from start rest 0 (INR (i + count) * dpu)).
Proof.
  induction count as [|count IH]; intros i start rest dpu acc.
  - cbn [generate_loop getPointAtDistance]. rewrite last_snoc, Nat.add_0_r.
    reflexivity.
  - remember (S count) as c eqn:Hc. cbn [generate_loop getPointAtDistance].
    subst c. rewrite IH.
    replace (S i + count)%nat with (i + S count)%nat by lia. reflexivity.
Qed.

(** X11. When the last sample overshoots the length of the route, which
    it does unless that length is a whole multiple of the distance per
    update, the densified route ends on the final point itself. *)
Lemma densified_route_exact_when_overshooting start p rest speedKmh updateIntervalMs :
  speedKmh > 0 -> updateIntervalMs > 0 ->
  let distancePerUpdate := speedKmh * 1000 / 3600 * (updateIntervalMs / 1000) in
  let totalDistance := totalDistance_from start (p :: rest) 0 in
  totalDistance < IZR (Zceil (totalDistance / distancePerUpdate)) * distancePerUpdate ->
  last (generateHighResolutionRoute (start :: p :: rest) speedKmh updateIntervalMs)
  = Some (List.last (p :: rest) start).
Proof.
  intros Hs Hi dpu total Hover.
  assert (Hdpu : 0 < dpu) by (unfold dpu; nra).
  assert (Htot : 0 <= total) by (apply totalDistance_from_ge).
  assert (Hn : (0 <= Zceil (total / dpu))%Z).
  { apply le_IZR. destruct (Zceil_bound (total / dpu)) as [_ Hub].
    eapply Rle_trans; [|exact Hub].
    apply Rmult_le_pos; [exact Htot | left; apply Rinv_0_lt_compat; exact Hdpu]. }
  unfold generateHighResolutionRoute. fold dpu. fold total.
  replace (Z.to_nat (Zceil (total / dpu) + 1)) with (S (Z.to_nat (Zceil (total / dpu))))
    by lia.
  rewrite generate_loop_last. cbn [Nat.add].
  rewrite INR_IZR_INZ, Z2Nat.id by exact Hn.
  rewrite (getPointAtDistance_past_end (p :: rest) start 0 _ Hover).
  unfold calculateDistanceMeters. rewrite haversine_same.
  destruct (Rgt_dec 0 1) as [H|_]; [lra|].
  rewrite generate_loop_last. cbn [Nat.add].
  rewrite INR_IZR_INZ, Z2Nat.id by exact Hn.
  rewrite (getPointAtDistance_past_end (p :: rest) start 0 _ Hover).
  reflexivity.
Qed.


End DensifierFacts.

(** * Further properties *)

(** ** More on the polyline codec *)

Section CodecMore.
Import JS Polyline PolylineSpec.



Lemma googleSample_geographic : Forall geographic googleSample.
Proof.
  repeat constructor; unfold geographic; cbn [lat lng];
    apply Qle_bool_iff; vm_compute; reflexivity.
Qed.


Lemma googleSample_on_grid :
  Forall (fun p => rounded5 (lat p) /\ rounded5 (lng p)) googleSample.
Proof. repeat constructor; vm_compute; reflexivity. Qed.

Lemma googleSample_in_range : deltas_in_range 0 0 googleSample.
Proof. vm_compute. repeat split; discriminate. Qed.

Lemma decode_encode_exact_on_grid_witness :
  Forall (fun p => rounded5 (lat p) /\ rounded5 (lng p)) googleSample /\
  deltas_in_range 0 0 googleSample /\
  exists s decoded,
    encodePolyline googleSample = Some s /\ decodePolyline s = Some decoded /\
    Forall2 (fun p q => (lat q == lat p)%Q /\ (lng q == lng p)%Q)
            googleSample decoded.
Proof.
  split; [exact googleSample_on_grid|]. split; [exact googleSample_in_range|].
  exact (decode_encode_exact_on_grid googleSample googleSample_on_grid
           googleSample_in_range).
Defined.

(** *** Encoding what was decoded *)

Lemma e5_of_grid k : e5 (inject_Z k / 100000) = k.
Proof.
  unfold e5, round.
  assert (H : (inject_Z k / 100000 * 100000 + (1 # 2) == inject_Z k + (1 # 2))%Q)
    by field.
  rewrite H. apply round_inject_Z.
Qed.

Lemma encodePolyline_loop_snap pts : forall acc pl pg,
  encodePolyline_loop (map snap pts) acc pl pg = encodePolyline_loop pts acc pl pg.
Proof.
  induction pts as [|p rest IH]; intros acc pl pg; [reflexivity|].
  cbn [map encodePolyline_loop snap lat lng].
  change (round (inject_Z (e5 (lat p)) / 100000 * 100000))
    with (e5 (inject_Z (e5 (lat p)) / 100000)).
  change (round (inject_Z (e5 (lng p)) / 100000 * 100000))
    with (e5 (inject_Z (e5 (lng p)) / 100000)).
  rewrite !e5_of_grid. unfold e5 at 1 2 3 4.
  destruct (encodeNumber (round (lat p * 100000) - pl)); [|reflexivity].
  destruct (encodeNumber (round (lng p * 100000) - pg)); [|reflexivity].
  apply IH.
Qed.

(** X3. Decoding an encoded route and encoding the result again gives the
    same string: the decoded points are a fixed point of the codec. *)
Theorem reencode_decoded (pts : list LatLng) :
  deltas_in_range 0 0 pts ->
  exists s decoded,
    encodePolyline pts = Some s /\
    decodePolyline s = Some decoded /\
    encodePolyline decoded = Some s.
Proof.
  intros Hrange.
  destruct (decode_encode_snaps pts Hrange) as (s & Hs & Hd).
  exists s, (map snap pts). split; [exact Hs|]. split; [exact Hd|].
  destruct pts as [|p rest]; [exact Hs|].
  unfold encodePolyline in *. cbn [map].
  change (snap p :: map snap rest) with (map snap (p :: rest)).
  rewrite encodePolyline_loop_snap. exact Hs.
Qed.

Lemma reencode_decoded_witness :
  deltas_in_range 0 0 googleSample /\
  exists s decoded,
    encodePolyline googleSample = Some s /\
    decodePolyline s = Some decoded /\
    encodePolyline decoded = Some s.
Proof.
  split; [exact googleSample_in_range|].
  exact (reencode_decoded googleSample googleSample_in_range).
Defined.


(** *** The shape of an encoded string *)

Lemma encodeNumber_loop_length fuel : forall sgn acc s (k : nat),
  encodeNumber_loop fuel sgn acc = Some s ->
  - 2 ^ 31 <= sgn < 2 ^ 31 -> sgn < 32 * 32 ^ Z.of_nat k ->
  (length acc + 1 <= length s <= length acc + k + 1)%nat.
Proof.
  induction fuel as [|fuel IH]; intros sgn acc s k H Hr Hb; [discriminate|].
  cbn [encodeNumber_loop] in H.
  destruct (32 <=? sgn) eqn:Hcmp.
  - apply Z.leb_le in Hcmp.
    destruct k as [|k]; [change (32 * 32 ^ Z.of_nat 0) with 32 in Hb; lia|].
    rewrite sar32_5 in H by lia.
    apply (IH _ _ _ k) in H.
    + rewrite length_app in H. simpl in H. lia.
    + split; [transitivity 0; [lia | apply Z.div_pos; lia]
             | apply Z.div_lt_upper_bound; lia].
    + apply Z.div_lt_upper_bound; [lia|].
      rewrite Nat2Z.inj_succ, Z.pow_succ_r in Hb by lia. lia.
  - inversion H; subst s. rewrite length_app. simpl. lia.
Qed.

Lemma encodeNumber_length n s :
  encodeNumber n = Some s -> (1 <= length s <= 7)%nat.
Proof.
  unfold encodeNumber. intros H.
  pose proof (zigzag_int32 n) as Hz.
  apply (encodeNumber_loop_length _ _ _ _ 6) in H; [simpl in H; lia | exact Hz |].
  change (32 * 32 ^ Z.of_nat 6) with (2 ^ 35).
  assert (2 ^ 31 < 2 ^ 35) by (apply Z.pow_lt_mono_r; lia). lia.
Qed.

Lemma encodePolyline_loop_length pts : forall acc pl pg s,
  encodePolyline_loop pts acc pl pg = Some s ->
  (length acc + 2 * length pts <= length s <= length acc + 14 * length pts)%nat.
Proof.
  induction pts as [|p rest IH]; intros acc pl pg s H; cbn [encodePolyline_loop] in H.
  - inversion H; subst s. simpl. lia.
  - destruct (encodeNumber (round (lat p * 100000) - pl)) as [elat|] eqn:Elat;
      [|discriminate].
    destruct (encodeNumber (round (lng p * 100000) - pg)) as [elng|] eqn:Elng;
      [|discriminate].
    apply encodeNumber_length in Elat, Elng.
    apply IH in H. rewrite !length_app in H. simpl length. lia.
Qed.

Lemma encodePolyline_total_aux (pts : list LatLng) :
  exists s, encodePolyline pts = Some s.
Proof.
  destruct pts as [|p rest]; [exists []; reflexivity|].
  apply encodePolyline_loop_total.
Qed.

(** X4. [encodePolyline] returns a string for every sequence of points,
    in range or not, and spends between 2 and 14 code units on each
    point. *)
Theorem encodePolyline_total_length (pts : list LatLng) :
  exists s,
    encodePolyline pts = Some s /\
    (2 * length pts <= length s <= 14 * length pts)%nat.
Proof.
  destruct pts as [|p rest].
  - exists []. split; [reflexivity | simpl; lia].
  - destruct (encodePolyline_loop_total (p :: rest) [] 0 0) as [s Hs].
    exists s. split; [exact Hs|].
    apply encodePolyline_loop_length in Hs. simpl in Hs. simpl length. lia.
Qed.

(** The code units of printable ASCII the format uses. *)
Lemma continuation_unit sgn :
  0 <= sgn < 2 ^ 31 ->
  fromCharCode (or32 32 (and32 sgn 31) + 63) = 95 + sgn mod 32.
Proof.
  intros Hs.
  assert (Hm : 0 <= sgn mod 32 < 32) by (apply Z.mod_pos_bound; lia).
  unfold fromCharCode, or32, and32.
  rewrite (ToInt32_small sgn), (ToInt32_small 31), (ToInt32_small 32) by lia.
  rewrite land_31. rewrite (ToInt32_small (sgn mod 32)) by lia.
  change 32 with (Z.shiftl 1 5) at 1.
  rewrite Z.lor_comm, lor_low_shiftl by (simpl; lia).
  rewrite Z.mod_small by (simpl; lia). simpl. lia.
Qed.

Lemma encodeNumber_loop_printable fuel : forall sgn acc s,
  encodeNumber_loop fuel sgn acc = Some s ->
  0 <= sgn < 2 ^ 31 ->
  Forall (fun c => 63 <= c <= 126) acc ->
  Forall (fun c => 63 <= c <= 126) s.
Proof.
  induction fuel as [|fuel IH]; intros sgn acc s H Hs Hacc; [discriminate|].
  cbn [encodeNumber_loop] in H.
  destruct (32 <=? sgn) eqn:Hcmp.
  - apply Z.leb_le in Hcmp. rewrite sar32_5 in H by lia.
    apply IH in H; [exact H | |].
    + split; [apply Z.div_pos; lia | apply Z.div_lt_upper_bound; lia].
    + apply Forall_app. split; [exact Hacc|]. constructor; [|constructor].
      rewrite continuation_unit by lia.
      assert (0 <= sgn mod 32 < 32) by (apply Z.mod_pos_bound; lia). lia.
  - apply Z.leb_gt in Hcmp. inversion H; subst s.
    apply Forall_app. split; [exact Hacc|]. constructor; [|constructor].
    unfold fromCharCode. rewrite Z.mod_small by (simpl; lia). lia.
Qed.

Lemma encodePolyline_loop_printable pts : forall acc pl pg s,
  encodePolyline_loop pts acc pl pg = Some s ->
  deltas_in_range pl pg pts ->
  Forall (fun c => 63 <= c <= 126) acc ->
  Forall (fun c => 63 <= c <= 126) s.
Proof.
  induction pts as [|p rest IH]; intros acc pl pg s H Hrange Hacc;
    cbn [encodePolyline_loop] in H.
  - inversion H; subst s. exact Hacc.
  - destruct Hrange as (Hlat & Hlng & Hrest).
    destruct (encodeNumber (round (lat p * 100000) - pl)) as [elat|] eqn:Elat;
      [|discriminate].
    destruct (encodeNumber (round (lng p * 100000) - pg)) as [elng|] eqn:Elng;
      [|discriminate].
    apply (IH _ _ _ _ H Hrest).
    unfold encodeNumber in Elat, Elng.
    destruct (zigzag_in_range _ Hlat) as [Hz1 _].
    destruct (zigzag_in_range _ Hlng) as [Hz2 _].
    apply Forall_app. split; [apply Forall_app; split; [exact Hacc|]|].
    + apply (encodeNumber_loop_printable _ _ _ _ Elat Hz1). constructor.
    + apply (encodeNumber_loop_printable _ _ _ _ Elng Hz2). constructor.
Qed.

(** X5. Within the range the format supports, every code unit of an
    encoded route is a printable ASCII character between '?' (63) and
    '~' (126), so the string can be stored and sent as plain text. *)
Theorem encodePolyline_printable (pts : list LatLng) (s : jsstring) :
  deltas_in_range 0 0 pts ->
  encodePolyline pts = Some s ->
  Forall (fun c => 63 <= c <= 126) s.
Proof.
  intros Hrange Hs. destruct pts as [|p rest].
  - inversion Hs. constructor.
  - apply (encodePolyline_loop_printable _ _ _ _ _ Hs Hrange). constructor.
Qed.

Lemma encodePolyline_printable_witness :
  deltas_in_range 0 0 googleSample /\
  exists s, encodePolyline googleSample = Some s /\
            Forall (fun c => 63 <= c <= 126) s.
Proof.
  split; [exact googleSample_in_range|].
  destruct (encodePolyline_loop_total googleSample [] 0 0) as [s Hs].
  exists s. split; [exact Hs|].
  exact (encodePolyline_printable googleSample s googleSample_in_range Hs).
Defined.


Lemma encodePolyline_loop_app pts more : forall acc pl pg s,
  encodePolyline_loop pts acc pl pg = Some s ->
  exists tail, encodePolyline_loop (pts ++ more) acc pl pg = Some (s ++ tail).
Proof.
  induction pts as [|p rest IH]; intros acc pl pg s H.
  - cbn [encodePolyline_loop] in H. inversion H; subst s. cbn [app].
    destruct (encodePolyline_loop_total more acc pl pg) as [s2 Hs2].
    destruct (encodePolyline_loop_prefix _ _ _ _ _ Hs2) as (tail & -> & _).
    exists tail. exact Hs2.
  - cbn [app encodePolyline_loop] in *.
    destruct (encodeNumber (round (lat p * 100000) - pl)) as [elat|];
      [|discriminate].
    destruct (encodeNumber (round (lng p * 100000) - pg)) as [elng|];
      [|discriminate].
    apply IH. exact H.
Qed.

(** X6. Appending points to a route only appends to its encoding: the
    encoding of the longer route starts with the encoding of the shorter
    one. *)
Theorem encodePolyline_append (pts more : list LatLng) (s : jsstring) :
  encodePolyline pts = Some s ->
  exists tail, encodePolyline (pts ++ more) = Some (s ++ tail).
Proof.
  intros Hs. destruct pts as [|p rest].
  - inversion Hs; subst s. cbn [app].
    destruct (encodePolyline_total_aux more) as [s2 Hs2]. exists s2. exact Hs2.
  - unfold encodePolyline in *. cbn [app].
    change (p :: rest ++ more) with ((p :: rest) ++ more).
    apply encodePolyline_loop_app. exact Hs.
Qed.

Lemma encodePolyline_append_witness :
  encodePolyline googleSample = Some (of_string "_p~iF~ps|U_ulLnnqC_mqNvxq`@") /\
  exists tail,
    encodePolyline (googleSample ++ googleSample)
    = Some (of_string "_p~iF~ps|U_ulLnnqC_mqNvxq`@" ++ tail).
Proof.
  split; [exact encode_google_sample|].
  exact (encodePolyline_append googleSample googleSample _ encode_google_sample).
Defined.

End CodecMore.

(** ** Distances and bearings *)

Section GeoMore.
Import Geo GeoTools.
Local Open Scope R_scope.

Lemma atan_nonpos z : z <= 0 -> atan z <= 0.
Proof.
  intros [Hlt | ->].
  - rewrite <- atan_0. left. apply atan_increasing. exact Hlt.
  - rewrite atan_0. lra.
Qed.

Lemma atan_pos z : 0 < z -> 0 < atan z.
Proof. intros Hz. rewrite <- atan_0. apply atan_increasing. exact Hz. Qed.

Lemma atan2_range y x : - PI < atan2 y x <= PI.
Proof.
  pose proof PI_RGT_0 as Hpi. pose proof (atan_bound (y / x)) as Hb.
  unfold atan2.
  destruct (Rlt_dec 0 x) as [Hx|Hx]; [lra|].
  destruct (Rlt_dec x 0) as [Hx'|Hx'].
  - assert (Hinv : / x < 0) by (apply Rinv_lt_0_compat; exact Hx').
    destruct (Rle_dec 0 y) as [Hy|Hy].
    + assert (atan (y / x) <= 0); [|lra].
      apply atan_nonpos. unfold Rdiv. nra.
    + assert (0 < atan (y / x)); [|lra].
      apply atan_pos. unfold Rdiv. nra.
  - destruct (Rlt_dec 0 y); [lra|]. destruct (Rlt_dec y 0); lra.
Qed.

Lemma atan2_le_PI2 y x : 0 <= x -> atan2 y x <= PI / 2.
Proof.
  intros Hx0. pose proof PI_RGT_0 as Hpi.
  pose proof (atan_bound (y / x)) as Hb.
  unfold atan2.
  destruct (Rlt_dec 0 x) as [Hx|Hx]; [lra|].
  destruct (Rlt_dec x 0) as [Hx'|Hx']; [lra|].
  destruct (Rlt_dec 0 y); [lra|]. destruct (Rlt_dec y 0); lra.
Qed.

(** X7. The distance [calculateDistance] computes is never negative and
    never more than half the circumference of the Earth of radius
    6 371 000 m. *)
Theorem calculateDistance_bounds (lat1 lng1 lat2 lng2 : R) :
  0 <= calculateDistance lat1 lng1 lat2 lng2 <= 6371000 * PI.
Proof.
  unfold calculateDistance.
  set (a := sin _ * sin _ + _).
  pose proof (atan2_nonneg (sqrt a) (sqrt (1 - a)) (sqrt_pos _) (sqrt_pos _)).
  pose proof (atan2_le_PI2 (sqrt a) (sqrt (1 - a)) (sqrt_pos _)).
  cbv zeta. lra.
Qed.

(** X8. The distance is the same in both directions, and it is zero from
    a point to itself. *)
Theorem calculateDistance_symmetric (lat1 lng1 lat2 lng2 : R) :
  calculateDistance lat1 lng1 lat2 lng2 = calculateDistance lat2 lng2 lat1 lng1 /\
  calculateDistance lat1 lng1 lat1 lng1 = 0.
Proof.
  split.
  - unfold calculateDistance, toRad. cbv zeta.
    replace ((lat1 - lat2) * (PI / 180) / 2)
      with (- ((lat2 - lat1) * (PI / 180) / 2)) by lra.
    replace ((lng1 - lng2) * (PI / 180) / 2)
      with (- ((lng2 - lng1) * (PI / 180) / 2)) by lra.
    rewrite !sin_neg.
    set (s1 := sin ((lat2 - lat1) * (PI / 180) / 2)).
    set (s2 := sin ((lng2 - lng1) * (PI / 180) / 2)).
    set (c1 := cos (lat1 * (PI / 180))). set (c2 := cos (lat2 * (PI / 180))).
    replace (- s1 * - s1 + c2 * c1 * - s2 * - s2)
      with (s1 * s1 + c1 * c2 * s2 * s2) by ring.
    reflexivity.
  - unfold calculateDistance, toRad. cbv zeta.
    replace ((lat1 - lat1) * (PI / 180) / 2) with 0 by lra.
    replace ((lng1 - lng1) * (PI / 180) / 2) with 0 by lra.
    rewrite sin_0.
    set (c1 := cos (lat1 * (PI / 180))).
    replace (0 * 0 + c1 * c1 * 0 * 0) with 0 by ring.
    rewrite Rminus_0_r, sqrt_0, sqrt_1.
    unfold atan2. destruct (Rlt_dec 0 1) as [_|Hn]; [|lra].
    replace (0 / 1) with 0 by lra. rewrite atan_0. lra.
Qed.

Lemma js_rem_360 a : 0 <= a -> 0 <= js_rem a 360 < 360.
Proof.
  intros Ha. unfold js_rem. cbv zeta.
  destruct (Rle_dec 0 (a / 360)) as [_|Hn]; [|lra].
  pose proof (Zfloor_bound (a / 360)). lra.
Qed.

Lemma degrees_range t : - PI < t <= PI -> -180 < t * (180 / PI) <= 180.
Proof.
  intros [Hlo Hhi]. pose proof PI_RGT_0 as Hpi.
  assert (Hk : 0 < 180 / PI) by (apply Rdiv_lt_0_compat; lra).
  assert (He : PI * (180 / PI) = 180) by (field; lra).
  split.
  - assert (- PI * (180 / PI) < t * (180 / PI))
      by (apply Rmult_lt_compat_r; assumption). lra.
  - assert (t * (180 / PI) <= PI * (180 / PI))
      by (apply Rmult_le_compat_r; lra). lra.
Qed.

Lemma simulator_bearing_eq lat1 lng1 lat2 lng2 :
  SimulatorRoute.calculateBearing lat1 lng1 lat2 lng2 =
  calculateBearing lat1 lng1 lat2 lng2.
Proof.
  pose proof PI_RGT_0 as Hpi.
  unfold SimulatorRoute.calculateBearing, calculateBearing, toRad. cbv zeta.
  replace ((lng2 - lng1) * PI / 180) with ((lng2 - lng1) * (PI / 180)) by lra.
  replace (lat1 * PI / 180) with (lat1 * (PI / 180)) by lra.
  replace (lat2 * PI / 180) with (lat2 * (PI / 180)) by lra.
  f_equal. f_equal. field. lra.
Qed.

(** X9. Both copies of [calculateBearing] return a compass bearing: a
    number from 0 (included) to 360 (excluded), whatever the four
    coordinates. *)
Theorem calculateBearing_range (lat1 lng1 lat2 lng2 : R) :
  0 <= calculateBearing lat1 lng1 lat2 lng2 < 360 /\
  0 <= SimulatorRoute.calculateBearing lat1 lng1 lat2 lng2 < 360.
Proof.
  rewrite simulator_bearing_eq.
  assert (H : 0 <= calculateBearing lat1 lng1 lat2 lng2 < 360); [|tauto].
  unfold calculateBearing. cbv zeta.
  apply js_rem_360.
  match goal with |- context [atan2 ?y ?x] =>
    pose proof (degrees_range _ (atan2_range y x)) end.
  lra.
Qed.

Lemma js_rem_360_360 : js_rem (0 + 360) 360 = 0.
Proof.
  unfold js_rem. cbv zeta.
  replace ((0 + 360) / 360) with (IZR 1) by lra.
  destruct (Rle_dec 0 (IZR 1)) as [_|Hn]; [|lra].
  rewrite ZfloorZ. lra.
Qed.

Lemma js_rem_540_360 : js_rem (180 + 360) 360 = 180.
Proof.
  unfold js_rem. cbv zeta.
  destruct (Rle_dec 0 ((180 + 360) / 360)) as [_|Hn]; [|lra].
  rewrite (Zfloor_eq 1) by lra. lra.
Qed.

Lemma meridian_x lat1 lat2 :
  cos (toRad lat1) * sin (toRad lat2) -
  sin (toRad lat1) * cos (toRad lat2) * cos (toRad 0) =
  sin (toRad (lat2 - lat1)).
Proof.
  unfold toRad. replace (0 * (PI / 180)) with 0 by lra. rewrite cos_0.
  replace ((lat2 - lat1) * (PI / 180))
    with (lat2 * (PI / 180) - lat1 * (PI / 180)) by lra.
  rewrite sin_minus. ring.
Qed.

Lemma meridian_bearing_tools lat1 lat2 lng :
  lat1 <> lat2 -> Rabs (lat2 - lat1) < 180 ->
  calculateBearing lat1 lng lat2 lng = if Rlt_dec lat1 lat2 then 0 else 180.
Proof.
  intros Hne Habs. pose proof PI_RGT_0 as Hpi.
  apply Rabs_def2 in Habs. destruct Habs as [Hhi Hlo].
  unfold calculateBearing. cbv zeta.
  replace (lng - lng) with 0 by lra.
  rewrite meridian_x.
  replace (sin (toRad 0)) with 0
    by (unfold toRad; replace (0 * (PI / 180)) with 0 by lra; now rewrite sin_0).
  rewrite Rmult_0_l.
  set (x := sin (toRad (lat2 - lat1))).
  assert (Hrad : toRad (lat2 - lat1) = (lat2 - lat1) * (PI / 180)) by reflexivity.
  assert (Hk : 0 < PI / 180) by lra.
  destruct (Rlt_dec lat1 lat2) as [Hlt|Hge].
  - assert (Hx : 0 < x).
    { apply sin_gt_0; rewrite Hrad; [nra|].
      replace PI with (180 * (PI / 180)) at 2 by lra.
      apply Rmult_lt_compat_r; lra. }
    unfold atan2. destruct (Rlt_dec 0 x) as [_|Hn]; [|lra].
    replace (0 / x) with 0 by (unfold Rdiv; ring).
    rewrite atan_0, Rmult_0_l. apply js_rem_360_360.
  - assert (Hx : x < 0).
    { apply sin_lt_0_var; rewrite Hrad; [|nra].
      replace (- PI) with (-180 * (PI / 180)) by lra.
      apply Rmult_lt_compat_r; lra. }
    unfold atan2. destruct (Rlt_dec 0 x) as [Hp|_]; [lra|].
    destruct (Rlt_dec x 0) as [_|Hn]; [|lra].
    destruct (Rle_dec 0 0) as [_|Hn]; [|lra].
    replace (0 / x) with 0 by (unfold Rdiv; ring).
    rewrite atan_0.
    replace ((0 + PI) * (180 / PI)) with 180 by (field; lra).
    apply js_rem_540_360.
Qed.

(** X10. Along a meridian the bearing is that of the compass: 0 towards a
    point due north, 180 towards a point due south, for both copies of
    [calculateBearing]. *)
Theorem calculateBearing_meridian (lat1 lat2 lng : R) :
  lat1 <> lat2 -> Rabs (lat2 - lat1) < 180 ->
  calculateBearing lat1 lng lat2 lng = (if Rlt_dec lat1 lat2 then 0 else 180) /\
  SimulatorRoute.calculateBearing lat1 lng lat2 lng =
    (if Rlt_dec lat1 lat2 then 0 else 180).
Proof.
  intros Hne Habs. rewrite simulator_bearing_eq.
  split; apply meridian_bearing_tools; assumption.
Qed.

Lemma calculateBearing_meridian_witness :
  28 <> 30 /\ Rabs (30 - 28) < 180 /\
  calculateBearing 28 77 30 77 = (if Rlt_dec 28 30 then 0 else 180) /\
  SimulatorRoute.calculateBearing 28 77 30 77 =
    (if Rlt_dec 28 30 then 0 else 180).
Proof.
  assert (Hne : (28 : R) <> 30) by lra.
  assert (Habs : Rabs (30 - 28) < 180) by (apply Rabs_def1; lra).
  split; [exact Hne|]. split; [exact Habs|].
  exact (calculateBearing_meridian 28 30 77 Hne Habs).
Defined.

End GeoMore.

(** ** More on the routes of the simulator *)

Section RouteMore.
Import Geo Simulator SimulatorSpec SimulatorRoute.
Local Open Scope R_scope.


Lemma interpolatePoint_1 s e : interpolatePoint s e 1 = e.
Proof. destruct s, e. unfold interpolatePoint. cbn [lat lng]. f_equal; lra. Qed.

Lemma last_on_route rest : forall start,
  rest <> [] -> on_route (start :: rest) (List.last rest start).
Proof.
  induction rest as [|e rest IH]; intros start Hne; [congruence|].
  destruct rest as [|e' rest].
  - left. exists 1. split; [lra|]. symmetry. apply interpolatePoint_1.
  - right. change (List.last (e :: e' :: rest) start)
      with (List.last (e' :: rest) start).
    rewrite (List_last_default (e' :: rest) start e) by discriminate.
    apply IH. discriminate.
Qed.

Lemma getPointAtDistance_from_on_route rest : forall start acc target,
  rest <> [] -> acc <= target ->
  on_route (start :: rest) (getPointAtDistance_from start rest acc target).
Proof.
  induction rest as [|e rest IH]; intros start acc target Hne Hacc; [congruence|].
  cbn [getPointAtDistance_from].
  set (seg := calculateDistanceMeters (lat start) (lng start) (lat e) (lng e)).
  destruct (Rge_dec (acc + seg) target) as [Hin|Hout].
  - left. eexists. split; [|reflexivity].
    split; [|apply Rmin_r].
    apply Rmin_glb; [|lra].
    destruct (Rgt_dec seg 0) as [Hpos|_]; [|lra].
    apply Rmult_le_pos; [lra|]. left. apply Rinv_0_lt_compat. exact Hpos.
  - destruct rest as [|e' rest].
    + left. exists 1. split; [lra|]. symmetry. apply interpolatePoint_1.
    + right. apply IH; [discriminate | lra].
Qed.

Lemma generate_loop_on_route count : forall i start p rest dpu acc,
  0 <= dpu ->
  Forall (on_route (start :: p :: rest)) acc ->
  Forall (on_route (start :: p :: rest))
    (generate_loop count i (start :: p :: rest) dpu acc).
Proof.
  induction count as [|count IH]; intros i start p rest dpu acc Hdpu Hacc;
    [exact Hacc|].
  cbn [generate_loop getPointAtDistance].
  apply IH; [exact Hdpu|].
  apply Forall_app. split; [exact Hacc|]. constructor; [|constructor].
  apply getPointAtDistance_from_on_route; [discriminate|].
  apply Rmult_le_pos; [apply pos_INR | exact Hdpu].
Qed.

Lemma distancePerUpdate_pos speedKmh updateIntervalMs :
  speedKmh > 0 -> updateIntervalMs > 0 ->
  0 < speedKmh * 1000 / 3600 * (updateIntervalMs / 1000).
Proof.
  intros Hs Hu. apply Rmult_lt_0_compat; lra.
Qed.

(** X12. The densifier never leaves the route: every point it generates
    from a route of two points or more lies on one of the segments of
    that route. *)
Theorem densified_points_on_route (start p : Point) (rest : list Point)
    (speedKmh updateIntervalMs : R) :
  speedKmh > 0 -> updateIntervalMs > 0 ->
  Forall (on_route (start :: p :: rest))
    (generateHighResolutionRoute (start :: p :: rest) speedKmh updateIntervalMs).
Proof.
  intros Hs Hu.
  pose proof (distancePerUpdate_pos _ _ Hs Hu) as Hdpu.
  unfold generateHighResolutionRoute.
  set (dpu := speedKmh * 1000 / 3600 * (updateIntervalMs / 1000)) in *.
  set (n := Z.to_nat _).
  assert (Hgen : Forall (on_route (start :: p :: rest))
                   (generate_loop n 0 (start :: p :: rest) dpu []))
    by (apply generate_loop_on_route; [lra | constructor]).
  assert (Hlast : on_route (start :: p :: rest) (List.last (p :: rest) start))
    by (apply last_on_route; discriminate).
  destruct (last _) as [lastGenerated|].
  - destruct (Rgt_dec _ 1); [|exact Hgen].
    apply Forall_app. split; [exact Hgen|]. constructor; [exact Hlast|constructor].
  - apply Forall_app. split; [exact Hgen|]. constructor; [exact Hlast|constructor].
Qed.

Lemma densified_points_on_route_witness :
  30 > 0 /\ 3000 > 0 /\
  Forall (on_route sampleRoute) (generateHighResolutionRoute sampleRoute 30 3000).
Proof.
  assert (H2 : 30 > 0) by lra.
  assert (H3 : 3000 > 0) by lra.
  split; [exact H2|]. split; [exact H3|].
  exact (densified_points_on_route _ _ [] 30 3000 H2 H3).
Defined.








Lemma haversine_half_equator : haversine 0 0 0 180 = 6371000 * PI.
Proof.
  unfold haversine.
  replace ((0 - 0) * PI / 180 / 2) with 0 by lra.
  replace (0 * PI / 180) with 0 by lra.
  replace ((180 - 0) * PI / 180 / 2) with (PI / 2) by lra.
  rewrite sin_0, cos_0, sin_PI2.
  replace (0 * 0 + 1 * 1 * 1 * 1) with 1 by ring.
  replace (1 - 1) with 0 by ring.
  rewrite sqrt_1, sqrt_0.
  unfold atan2.
  destruct (Rlt_dec 0 0) as [Hn|_]; [lra|].
  destruct (Rlt_dec 0 1) as [_|Hn]; [|lra]. lra.
Qed.

Lemma densified_route_exact_when_overshooting_witness :
  360000000 > 0 /\ 1000 > 0 /\
  last (generateHighResolutionRoute [mkPoint 0 0; mkPoint 0 180] 360000000 1000)
  = Some (mkPoint 0 180).
Proof.
  assert (H2 : 360000000 > 0) by lra.
  assert (H3 : 1000 > 0) by lra.
  split; [exact H2|]. split; [exact H3|].
  apply (densified_route_exact_when_overshooting
           (mkPoint 0 0) (mkPoint 0 180) [] 360000000 1000 H2 H3).
  cbn [totalDistance_from lat lng]. unfold calculateDistanceMeters.
  rewrite haversine_half_equator.
  pose proof PI_RGT_0 as Hpi. pose proof PI_4 as Hpi4.
  replace (360000000 * 1000 / 3600 * (1000 / 1000)) with 100000000 by lra.
  rewrite (Zceil_eq 1) by lra. lra.
Defined.

End RouteMore.

(** ** More on the tracking routes *)

Section TrackingMore.
Import Geo Tracking TrackingSpec RouteSamples.

Lemma noidaWorld_lookup :
  trackings noidaWorld !! "order123"%string =
  Some (sampleTracking "order123" "order" noidaPlace None).
Proof. unfold noidaWorld. cbn [trackings]. apply lookup_singleton_eq. Qed.



Lemma Date_of_number_ge (now : Date) (x : R) :
  (IZR now <= x)%R -> now <= Date_of_number x.
Proof.
  intros Hx. unfold Date_of_number.
  destruct (Rle_dec 0 x) as [_|_].
  - apply Zfloor_lub. exact Hx.
  - apply le_IZR. pose proof (Zceil_bound x) as [_ Hc]. lra.
Qed.

Lemma newEta_ge t body now e : newEta t body now = Some e -> now <= e.
Proof.
  unfold newEta.
  destruct (latitude (destination t)) as [dlat|]; [|discriminate].
  destruct (longitude (destination t)) as [dlng|]; [|discriminate].
  destruct (truthy dlat && truthy dlng); [|discriminate].
  intros H. inversion H; subst e. apply Date_of_number_ge.
  pose proof (haversine_nonneg (b_latitude body) (b_longitude body) dlat dlng).
  unfold calculateDistance. lra.
Qed.

(** X16. The ETA a location update stores is never in the past: it is
    not earlier than the reading of the clock the update took. *)
Theorem updateLocation_eta_not_in_past w id body clock t' e :
  fst (updateLocation w id body clock) = Ok200 t' ->
  eta (route t') = Some e ->
  etaNow clock <= e.
Proof.
  unfold updateLocation.
  destruct (trackings w !! id) as [t|]; [|discriminate].
  cbn [fst]. intros H He. inversion H; subst t'.
  cbn [applyLocationUpdate route eta] in He.
  exact (newEta_ge _ _ _ _ He).
Qed.

Lemma updateLocation_eta_not_in_past_witness :
  exists t' e,
    fst (updateLocation noidaWorld "order123" sampleBody sampleLocationClock)
      = Ok200 t' /\
    eta (route t') = Some e /\
    etaNow sampleLocationClock <= e.
Proof.
  pose proof (updateLocation_found noidaWorld "order123" sampleBody
                sampleLocationClock _ noidaWorld_lookup) as Hu.
  assert (H1 : (2865 / 100 <> 0)%R) by lra.
  assert (H2 : (7735 / 100 <> 0)%R) by lra.
  pose proof (eta_from_nonzero_destination
                (sampleTracking "order123" "order" noidaPlace None) sampleBody
                (etaNow sampleLocationClock) _ _ eq_refl eq_refl H1 H2) as He.
  eexists. eexists.
  assert (Hfst : fst (updateLocation noidaWorld "order123" sampleBody
                        sampleLocationClock) = Ok200 _)
    by (rewrite Hu; reflexivity).
  assert (Heta : eta (route (applyLocationUpdate
                   (sampleTracking "order123" "order" noidaPlace None) sampleBody
                   (newEta (sampleTracking "order123" "order" noidaPlace None)
                      sampleBody (etaNow sampleLocationClock))
                   sampleLocationClock)) = Some _)
    by (cbn [applyLocationUpdate route eta]; exact He).
  split; [exact Hfst|]. split; [exact Heta|].
  exact (updateLocation_eta_not_in_past _ _ _ _ _ _ Hfst Heta).
Defined.

(** *** Runs of location updates *)

(** X17. A run of location updates on a record moves the driver and
    nothing else: the status, the delivery type, the origin, the
    destination, the stored route and the creation date of the record
    stay, every other record and every subscription stays, and each
    update emits exactly one event. *)
Theorem updateLocations_change_nothing_else w id t
    (calls : list (LocationBody * LocationClock)) :
  trackings w !! id = Some t ->
  exists t',
    trackings (updateLocations w id calls) !! id = Some t' /\
    status t' = status t /\
    deliveryType t' = deliveryType t /\
    destination t' = destination t /\
    origin t' = origin t /\
    points (route t') = points (route t) /\
    polyline (route t') = polyline (route t) /\
    createdAt t' = createdAt t /\
    (forall id', id' <> id ->
       trackings (updateLocations w id calls) !! id' = trackings w !! id') /\
    subscriptions (updateLocations w id calls) = subscriptions w /\
    length (emitted (updateLocations w id calls)) =
      (length (emitted w) + length calls)%nat.
Proof.
  revert w t.
  induction calls as [|[body clock] calls IH]; intros w t Ht.
  - exists t. cbn [updateLocations length]. rewrite Nat.add_0_r.
    repeat split; try reflexivity. exact Ht.
  - cbn [updateLocations]. rewrite (updateLocation_found _ _ _ _ _ Ht).
    cbn [snd].
    match goal with
    | |- context [updateLocations ?w1 id calls] =>
        destruct (IH w1
                    (applyLocationUpdate t body (newEta t body (etaNow clock)) clock))
          as (t' & Ht' & Hst & Hty & Hde & Hor & Hpt & Hpl & Hcr & Hot & Hsu & Hem);
          [cbn [trackings]; apply lookup_insert_eq|]
    end.
    exists t'. split; [exact Ht'|].
    cbn [applyLocationUpdate status deliveryType destination origin route points
         polyline createdAt] in Hst, Hty, Hde, Hor, Hpt, Hpl, Hcr.
    repeat split; try assumption.
    + intros id' Hne. rewrite (Hot id' Hne). cbn [trackings].
      apply lookup_insert_ne. congruence.
    + rewrite Hem. cbn [emitted]. rewrite length_app. simpl length. lia.
Qed.

Lemma updateLocations_change_nothing_else_witness :
  trackings noidaWorld !! "order123"%string =
    Some (sampleTracking "order123" "order" noidaPlace None) /\
  exists t',
    trackings (updateLocations noidaWorld "order123" threeCalls)
      !! "order123"%string = Some t' /\
    status t' = "assigned"%string /\
    destination t' = noidaPlace /\
    subscriptions (updateLocations noidaWorld "order123" threeCalls)
      = subscriptions noidaWorld /\
    length (emitted (updateLocations noidaWorld "order123" threeCalls)) = 3%nat.
Proof.
  split; [exact noidaWorld_lookup|].
  destruct (updateLocations_change_nothing_else noidaWorld "order123" _ threeCalls
              noidaWorld_lookup)
    as (t' & Ht' & Hst & _ & Hde & _ & _ & _ & _ & _ & Hsu & Hem).
  exists t'. split; [exact Ht'|]. split; [exact Hst|]. split; [exact Hde|].
  split; [exact Hsu | exact Hem].
Defined.

Lemma lastN_short {A} n (l : list A) : (length l <= n)%nat -> lastN n l = l.
Proof.
  intros H. unfold lastN.
  replace (length l - n)%nat with 0%nat by lia. apply drop_0.
Qed.

Lemma lastN_length_min {A} n (l : list A) :
  length (lastN n l) = Nat.min n (length l).
Proof. unfold lastN. rewrite length_drop. lia. Qed.

(** X18. However many location updates a record goes through, a history
    that starts within 100 entries holds the newest entries, oldest
    first, and as many of them as there are, up to 100. *)
Theorem history_keeps_newest w id t
    (calls : list (LocationBody * LocationClock)) :
  trackings w !! id = Some t ->
  (length (history t) <= 100)%nat ->
  exists t',
    trackings (updateLocations w id calls) !! id = Some t' /\
    history t' = lastN 100 (history t ++ map entry_of calls) /\
    length (history t') =
      Nat.min 100 (length (history t) + length calls).
Proof.
  intros Ht Hlen.
  destruct (updateLocations_history calls w id t Ht) as (t' & Ht' & Hh).
  exists t'. split; [exact Ht'|].
  assert (Heq : history t' = lastN 100 (history t ++ map entry_of calls)).
  { rewrite Hh. destruct calls as [|c calls].
    - cbn [map fold_left]. rewrite app_nil_r. symmetry.
      apply lastN_short. exact Hlen.
    - apply fold_push_lastN. discriminate. }
  split; [exact Heq|].
  rewrite Heq, lastN_length_min, length_app, length_map. reflexivity.
Qed.

Lemma history_keeps_newest_witness :
  trackings noidaWorld !! "order123"%string =
    Some (sampleTracking "order123" "order" noidaPlace None) /\
  (length (history (sampleTracking "order123" "order" noidaPlace None))
     <= 100)%nat /\
  exists t',
    trackings (updateLocations noidaWorld "order123" threeCalls)
      !! "order123"%string = Some t' /\
    history t' = lastN 100 (history (sampleTracking "order123" "order" noidaPlace None)
                              ++ map entry_of threeCalls) /\
    length (history t') = 3%nat.
Proof.
  assert (Hlen : (length (history (sampleTracking "order123" "order" noidaPlace None))
                    <= 100)%nat) by (simpl; lia).
  split; [exact noidaWorld_lookup|]. split; [exact Hlen|].
  exact (history_keeps_newest noidaWorld "order123" _ threeCalls
           noidaWorld_lookup Hlen).
Defined.


(** *** Sequences of status updates *)

Lemma In_validStatus st : In st status_enum -> validStatus st = true.
Proof. apply validStatus_In. Qed.

(** X19. The status route accepts every move between two of the six
    statuses, backwards too: after two updates in a row the record has
    the second status, its position, route, destination and history are
    those it had, and two events have been emitted. *)
Theorem updateStatus_any_transition w id t st1 st2 clock1 clock2 :
  trackings w !! id = Some t ->
  In st1 status_enum -> In st2 status_enum ->
  let w1 := snd (updateStatus w id st1 clock1) in
  exists t2,
    fst (updateStatus w1 id st2 clock2) = Ok200 t2 /\
    trackings (snd (updateStatus w1 id st2 clock2)) !! id = Some t2 /\
    status t2 = st2 /\
    lastUpdated t2 = statusNow clock2 /\
    currentLocation t2 = currentLocation t /\
    route t2 = route t /\
    destination t2 = destination t /\
    history t2 = history t /\
    length (emitted (snd (updateStatus w1 id st2 clock2))) =
      (length (emitted w) + 2)%nat.
Proof.
  intros Ht H1 H2. cbv zeta.
  rewrite (updateStatus_found_valid _ _ st1 _ _ Ht (In_validStatus _ H1)).
  cbn [snd].
  match goal with
  | |- context [updateStatus ?w1 id _ clock2] =>
      assert (Ht1 : trackings w1 !! id =
                    Some (applyStatusUpdate t st1 (statusNow clock1)))
        by (cbn [trackings]; apply lookup_insert_eq);
      rewrite (updateStatus_found_valid w1 id st2 clock2 _ Ht1 (In_validStatus _ H2))
  end.
  eexists. split; [reflexivity|]. cbn [fst snd trackings emitted].
  split; [apply lookup_insert_eq|].
  cbn [applyStatusUpdate status lastUpdated currentLocation route destination history].
  repeat split; try reflexivity.
  rewrite !length_app. simpl length. lia.
Qed.

Lemma status_enum_delivered : In "delivered"%string status_enum.
Proof. unfold status_enum. simpl. tauto. Qed.

Lemma status_enum_assigned : In "assigned"%string status_enum.
Proof. unfold status_enum. simpl. tauto. Qed.

Lemma orderWorld_lookup :
  trackings orderWorld !! "order123"%string =
  Some (sampleTracking "order123" "order" noPlace (Some 1704846600000)).
Proof. unfold orderWorld. cbn [trackings]. apply lookup_singleton_eq. Qed.

Lemma updateStatus_any_transition_witness :
  trackings orderWorld !! "order123"%string =
    Some (sampleTracking "order123" "order" noPlace (Some 1704846600000)) /\
  In "delivered"%string status_enum /\ In "assigned"%string status_enum /\
  exists t2,
    fst (updateStatus
           (snd (updateStatus orderWorld "order123" "delivered" sampleStatusClock))
           "order123" "assigned" laterStatusClock) = Ok200 t2 /\
    status t2 = "assigned"%string.
Proof.
  split; [exact orderWorld_lookup|].
  split; [exact status_enum_delivered|]. split; [exact status_enum_assigned|].
  destruct (updateStatus_any_transition orderWorld "order123" _
              "delivered" "assigned" sampleStatusClock laterStatusClock
              orderWorld_lookup status_enum_delivered status_enum_assigned)
    as (t2 & Hfst & _ & Hst & _).
  exists t2. split; [exact Hfst | exact Hst].
Defined.

Lemma subscriptionStatus_of_valid st :
  In st status_enum ->
  In (subscriptionStatus_of st)
     ["packed"; "out_for_delivery"; "nearby"; "delivered"]%string /\
  (subscriptionStatus_of st = "delivered"%string <-> st = "delivered"%string).
Proof.
  unfold status_enum. simpl.
  intros [<-|[<-|[<-|[<-|[<-|[<-|[]]]]]]]; vm_compute;
    (split; [tauto | split; intros H; (reflexivity || discriminate H)]).
Qed.

(** X20. A successful status update on a subscription delivery writes one
    of packed, out_for_delivery, nearby and delivered to the
    subscription, never pending; unless the status is delivered, the
    dates and the counter of the subscription stay as they are. Every
    other subscription stays as it is. *)
Theorem updateStatus_sync_table w id st clock t sub :
  trackings w !! id = Some t ->
  deliveryType t = "subscription"%string ->
  subscriptions w !! id = Some sub ->
  In st status_enum ->
  exists sub',
    subscriptions (snd (updateStatus w id st clock)) !! id = Some sub' /\
    deliveryStatus sub' = subscriptionStatus_of st /\
    In (deliveryStatus sub')
       ["packed"; "out_for_delivery"; "nearby"; "delivered"]%string /\
    (st <> "delivered"%string ->
       lastDeliveredDate sub' = lastDeliveredDate sub /\
       nextDelivery sub' = nextDelivery sub /\
       deliveriesInCycle sub' = deliveriesInCycle sub) /\
    plan sub' = plan sub /\ sub_status sub' = sub_status sub /\
    (forall id', id' <> id ->
       subscriptions (snd (updateStatus w id st clock)) !! id' =
       subscriptions w !! id').
Proof.
  intros Ht Hty Hsub Hin.
  rewrite (updateStatus_found_valid _ _ st _ _ Ht (In_validStatus _ Hin)).
  cbn [snd subscriptions]. rewrite Hty. cbn [String.eqb Ascii.eqb Bool.eqb orb].
  unfold syncSubscription. rewrite Hsub.
  destruct (subscriptionStatus_of_valid st Hin) as [Hmapped Hdel].
  eexists. split; [apply lookup_insert_eq|].
  unfold syncedSubscription.
  cbn [deliveryStatus lastDeliveredDate deliveriesInCycle nextDelivery plan sub_status].
  split; [reflexivity|]. split; [exact Hmapped|].
  split; [|split; [reflexivity|split; [reflexivity|]]].
  - intros Hne.
    destruct (subscriptionStatus_of st =? "delivered")%string eqn:E.
    + apply String.eqb_eq in E. apply Hdel in E. contradiction.
    + repeat split; reflexivity.
  - intros id' Hne. apply lookup_insert_ne. congruence.
Qed.

Lemma subscriptionWorld_lookup :
  trackings subscriptionWorld !! objectId =
  Some (sampleTracking objectId "subscription" noPlace None).
Proof. unfold subscriptionWorld. cbn [trackings]. apply lookup_singleton_eq. Qed.

Lemma subscriptionWorld_subscription :
  subscriptions subscriptionWorld !! objectId = Some (sampleSubscription "weekly").
Proof. unfold subscriptionWorld. cbn [subscriptions]. apply lookup_singleton_eq. Qed.

Lemma status_enum_en_route : In "en_route"%string status_enum.
Proof. unfold status_enum. simpl. tauto. Qed.

Lemma updateStatus_sync_table_witness :
  trackings subscriptionWorld !! objectId =
    Some (sampleTracking objectId "subscription" noPlace None) /\
  subscriptions subscriptionWorld !! objectId = Some (sampleSubscription "weekly") /\
  In "en_route"%string status_enum /\
  exists sub',
    subscriptions (snd (updateStatus subscriptionWorld objectId "en_route"
                          sampleStatusClock)) !! objectId = Some sub' /\
    deliveryStatus sub' = "out_for_delivery"%string.
Proof.
  split; [exact subscriptionWorld_lookup|].
  split; [exact subscriptionWorld_subscription|].
  split; [exact status_enum_en_route|].
  destruct (updateStatus_sync_table subscriptionWorld objectId "en_route"
              sampleStatusClock _ _ subscriptionWorld_lookup eq_refl
              subscriptionWorld_subscription status_enum_en_route)
    as (sub' & Hsub' & Hst & _).
  exists sub'. split; [exact Hsub' | exact Hst].
Defined.

(** X21. The status route does not recognise a repeated request: a
    second delivered update on a subscription delivery counts a second
    delivery and moves the dates to those of the second request. *)
Theorem updateStatus_delivered_twice w id t sub clock1 clock2 :
  trackings w !! id = Some t ->
  deliveryType t = "subscription"%string ->
  subscriptions w !! id = Some sub ->
  let w1 := snd (updateStatus w id "delivered" clock1) in
  exists sub2,
    subscriptions (snd (updateStatus w1 id "delivered" clock2)) !! id = Some sub2 /\
    deliveriesInCycle sub2 = deliveriesInCycle sub + 2 /\
    lastDeliveredDate sub2 = Some (today clock2) /\
    nextDelivery sub2 = Some (nextDate (plan sub) (today clock2)).
Proof.
  intros Ht Hty Hsub. cbv zeta.
  rewrite (updateStatus_found_valid _ _ "delivered" _ _ Ht eq_refl).
  cbn [snd].
  match goal with
  | |- context [updateStatus ?w1 id _ clock2] =>
      assert (Ht1 : trackings w1 !! id =
                    Some (applyStatusUpdate t "delivered" (statusNow clock1)))
        by (cbn [trackings]; apply lookup_insert_eq);
      rewrite (updateStatus_found_valid w1 id "delivered" clock2 _ Ht1 eq_refl)
  end.
  cbn [snd subscriptions applyStatusUpdate deliveryType]. rewrite Hty.
  cbn [String.eqb Ascii.eqb Bool.eqb orb].
  unfold syncSubscription. rewrite Hsub, lookup_insert_eq.
  eexists. split; [apply lookup_insert_eq|].
  change (subscriptionStatus_of "delivered") with "delivered"%string.
  unfold syncedSubscription. rewrite String.eqb_refl.
  cbn [deliveryStatus lastDeliveredDate deliveriesInCycle nextDelivery plan].
  split; [|split; reflexivity].
  destruct (deliveriesInCycle sub =? 0) eqn:E.
  - apply Z.eqb_eq in E. rewrite E. reflexivity.
  - destruct (deliveriesInCycle sub + 1 =? 0) eqn:E'; [|lia].
    apply Z.eqb_eq in E'. lia.
Qed.

Lemma updateStatus_delivered_twice_witness :
  trackings subscriptionWorld !! objectId =
    Some (sampleTracking objectId "subscription" noPlace None) /\
  subscriptions subscriptionWorld !! objectId = Some (sampleSubscription "weekly") /\
  exists sub2,
    subscriptions
      (snd (updateStatus
              (snd (updateStatus subscriptionWorld objectId "delivered"
                      sampleStatusClock))
              objectId "delivered" laterStatusClock)) !! objectId = Some sub2 /\
    deliveriesInCycle sub2 = 2 /\
    lastDeliveredDate sub2 = Some 1704866400000.
Proof.
  split; [exact subscriptionWorld_lookup|].
  split; [exact subscriptionWorld_subscription|].
  destruct (updateStatus_delivered_twice subscriptionWorld objectId _ _
              sampleStatusClock laterStatusClock subscriptionWorld_lookup eq_refl
              subscriptionWorld_subscription)
    as (sub2 & Hsub2 & Hcount & Hlast & _).
  exists sub2. split; [exact Hsub2|]. split; [exact Hcount | exact Hlast].
Defined.

End TrackingMore.

(** ** The delivery status of a subscription *)

Section SubscriptionMore.
Import Tracking TrackingSpec SubscriptionRoutes RouteSamples.





Lemma validStatuses_In s :
  existsb (String.eqb s) validStatuses = true <-> In s validStatuses.
Proof.
  rewrite existsb_exists. split.
  - intros (x & Hin & Heq). apply String.eqb_eq in Heq. subst x. exact Hin.
  - intros Hin. exists s. split; [exact Hin | apply String.eqb_refl].
Qed.

Lemma validStatuses_nonempty s : In s validStatuses -> (s =? "")%string = false.
Proof.
  unfold validStatuses. simpl.
  intros [<-|[<-|[<-|[<-|[<-|[]]]]]]; reflexivity.
Qed.

(** X23. [PATCH /:id/delivery-status] answers 400 with the message of
    an invalid status exactly when the body
    carries no status or a status outside pending, packed,
    out_for_delivery, nearby and delivered; the statuses of the tracking
    route en_route, arrived, assigned and picking_up are among those it
    refuses. A request it refuses changes nothing. *)
Theorem updateDeliveryStatus_refuses
    (subs : gmap string SubscriptionDoc) (id : string)
    (status' : option string) (today : Date) :
  (fst (updateDeliveryStatus subs id status' today)
     = SubBadRequest400 invalidStatusMessage
   <-> forall s, status' = Some s -> ~ In s validStatuses) /\
  (fst (updateDeliveryStatus subs id status' today)
     = SubBadRequest400 invalidStatusMessage ->
   snd (updateDeliveryStatus subs id status' today) = subs) /\
  (forall s, In s ["en_route"; "arrived"; "assigned"; "picking_up"]%string ->
     updateDeliveryStatus subs id (Some s) today
     = (SubBadRequest400 invalidStatusMessage, subs)).
Proof.
  split; [|split].
  - unfold updateDeliveryStatus. destruct status' as [s|].
    + destruct (existsb (String.eqb s) validStatuses) eqn:Hv.
      * apply validStatuses_In in Hv.
        rewrite (validStatuses_nonempty s Hv). cbn [orb negb].
        split.
        -- destruct (subs !! id); cbn [fst];
             [|unfold notFound; destruct (isObjectId id)]; discriminate.
        -- intros H. exfalso. exact (H s eq_refl Hv).
      * rewrite orb_true_r. cbn [fst]. split; [|reflexivity].
        intros _ s' Hs'. inversion Hs'; subst s'. intros Hin.
        apply validStatuses_In in Hin. congruence.
    + cbn [fst]. split; [|reflexivity]. intros _ s Hs. discriminate.
  - unfold updateDeliveryStatus. destruct status' as [s|]; [|reflexivity].
    destruct ((s =? "")%string || negb (existsb (String.eqb s) validStatuses));
      [reflexivity|].
    destruct (subs !! id); cbn [fst];
      [|unfold notFound; destruct (isObjectId id)]; discriminate.
  - simpl. intros s [<-|[<-|[<-|[<-|[]]]]]; reflexivity.
Qed.

(** *** The effective status over the days *)

Lemma startOfDay_addDays tz d k :
  startOfDay tz (Date_addDays d k) = startOfDay tz d + k * msPerDay.
Proof.
  unfold startOfDay, Date_addDays.
  replace (d + k * msPerDay + tz) with (d + tz + k * msPerDay) by lia.
  rewrite Z_mod_plus_full. lia.
Qed.

Lemma startOfDay_nextDate tz p d :
  startOfDay tz d < startOfDay tz (nextDate p d).
Proof.
  unfold nextDate.
  destruct (p =? "daily")%string; [|destruct (p =? "alternate")%string;
    [|destruct (p =? "weekly")%string]];
    rewrite startOfDay_addDays; unfold msPerDay; lia.
Qed.

Lemma updateDeliveryStatus_delivered subs id sub today :
  subs !! id = Some sub ->
  updateDeliveryStatus subs id (Some "delivered"%string) today =
  (SubOk (applyDeliveryStatus sub "delivered" today),
   <[id := applyDeliveryStatus sub "delivered" today]> subs).
Proof.
  intros H. unfold updateDeliveryStatus.
  assert (Hc : ("delivered" =? "")%string
               || negb (existsb (String.eqb "delivered") validStatuses) = false)
    by reflexivity.
  rewrite Hc, H. reflexivity.
Qed.

Lemma delivered_deliveryStatus sub today :
  deliveryStatus (applyDeliveryStatus sub "delivered" today) = "delivered"%string.
Proof. reflexivity. Qed.

Lemma delivered_lastDeliveredDate sub today :
  lastDeliveredDate (applyDeliveryStatus sub "delivered" today) = Some today.
Proof. reflexivity. Qed.

Lemma delivered_nextDelivery sub today :
  nextDelivery (applyDeliveryStatus sub "delivered" today)
  = Some (nextDate (plan sub) today).
Proof. reflexivity. Qed.

(** What [GET /:id] does with a subscription that is stored as delivered
    with both of its dates. *)
Lemma getSubscription_delivered tz subs id sub1 now ld nd :
  subs !! id = Some sub1 ->
  deliveryStatus sub1 = "delivered"%string ->
  lastDeliveredDate sub1 = Some ld ->
  nextDelivery sub1 = Some nd ->
  startOfDay tz ld < startOfDay tz nd ->
  getSubscription tz subs id now =
  if startOfDay tz now =? startOfDay tz nd then
    (SubEffective (setDeliveryStatus sub1 "packed") "packed",
     <[id := setDeliveryStatus sub1 "packed"]> subs)
  else if (startOfDay tz ld <=? startOfDay tz now)
          && (startOfDay tz now <? startOfDay tz nd)
  then (SubEffective sub1 "delivered", subs)
  else if startOfDay tz nd <=? startOfDay tz now
  then (SubEffective sub1 "pending", subs)
  else (SubEffective sub1 "delivered", subs).
Proof.
  intros Hsub Hst Hld Hnd Hlt.
  unfold getSubscription. rewrite Hsub. cbv zeta.
  rewrite Hnd, Hld. cbn [option_map].
  unfold effectiveStatus. rewrite Hst.
  change (or_pending "delivered") with "delivered"%string.
  change ("delivered" =? "delivered")%string with true. cbv iota.
  set (T := startOfDay tz now) in *. set (L := startOfDay tz ld) in *.
  set (N := startOfDay tz nd) in *.
  destruct (T =? N) eqn:E.
  - apply Z.eqb_eq in E.
    assert (H1 : (L <=? T) && (T <? N) = false).
    { apply andb_false_iff. right. apply Z.ltb_ge. lia. }
    assert (H2 : (N <=? T) = true) by (apply Z.leb_le; lia).
    rewrite H1, H2. reflexivity.
  - cbn [andb].
    destruct ((L <=? T) && (T <? N)); [reflexivity|].
    destruct (N <=? T); reflexivity.
Qed.

(** X24. From the day of a delivery to the day before the next one,
    [GET /:id] reports the subscription as delivered and writes
    nothing. *)
Theorem getSubscription_while_delivered (tz : Z)
    (subs : gmap string SubscriptionDoc) (id : string) (sub : SubscriptionDoc)
    (today now : Date) :
  subs !! id = Some sub ->
  startOfDay tz today <= startOfDay tz now
    < startOfDay tz (nextDate (plan sub) today) ->
  let subs1 := snd (updateDeliveryStatus subs id (Some "delivered"%string) today) in
  exists sub1,
    subs1 !! id = Some sub1 /\
    getSubscription tz subs1 id now = (SubEffective sub1 "delivered", subs1).
Proof.
  intros Hsub [Hlo Hhi]. cbv zeta.
  rewrite (updateDeliveryStatus_delivered _ _ _ _ Hsub). cbn [snd].
  eexists. split; [apply lookup_insert_eq|].
  rewrite (getSubscription_delivered tz _ id _ now today
             (nextDate (plan sub) today) (lookup_insert_eq _ _ _)
             (delivered_deliveryStatus _ _) (delivered_lastDeliveredDate _ _)
             (delivered_nextDelivery _ _) (startOfDay_nextDate _ _ _)).
  destruct (Z.eqb_spec (startOfDay tz now)
              (startOfDay tz (nextDate (plan sub) today))) as [E|_]; [lia|].
  assert (H1 : (startOfDay tz today <=? startOfDay tz now)
               && (startOfDay tz now <? startOfDay tz (nextDate (plan sub) today))
               = true).
  { apply andb_true_iff. split; [apply Z.leb_le | apply Z.ltb_lt]; lia. }
  rewrite H1. reflexivity.
Qed.

Lemma getSubscription_while_delivered_witness :
  subscriptions subscriptionWorld !! objectId = Some (sampleSubscription "weekly") /\
  startOfDay 19800000 1704844800000 <= startOfDay 19800000 1704866400000
    < startOfDay 19800000
        (nextDate (plan (sampleSubscription "weekly")) 1704844800000) /\
  exists sub1,
    snd (updateDeliveryStatus (subscriptions subscriptionWorld) objectId
           (Some "delivered"%string) 1704844800000) !! objectId = Some sub1 /\
    getSubscription 19800000
      (snd (updateDeliveryStatus (subscriptions subscriptionWorld) objectId
              (Some "delivered"%string) 1704844800000))
      objectId 1704866400000 =
    (SubEffective sub1 "delivered",
     snd (updateDeliveryStatus (subscriptions subscriptionWorld) objectId
            (Some "delivered"%string) 1704844800000)).
Proof.
  assert (Hday : startOfDay 19800000 1704844800000
                   <= startOfDay 19800000 1704866400000
                   < startOfDay 19800000
                       (nextDate (plan (sampleSubscription "weekly")) 1704844800000))
    by (split; [apply Z.leb_le | apply Z.ltb_lt]; vm_compute; reflexivity).
  split; [exact subscriptionWorld_subscription|]. split; [exact Hday|].
  exact (getSubscription_while_delivered 19800000 _ objectId _ 1704844800000
           1704866400000 subscriptionWorld_subscription Hday).
Defined.

(** X25. On the day of the next delivery the first [GET /:id] turns the
    delivered subscription to packed and stores it so; on any later day
    it reports pending and leaves the stored status at delivered. *)
Theorem getSubscription_from_next_delivery_day (tz : Z)
    (subs : gmap string SubscriptionDoc) (id : string) (sub : SubscriptionDoc)
    (today now : Date) :
  subs !! id = Some sub ->
  startOfDay tz (nextDate (plan sub) today) <= startOfDay tz now ->
  let subs1 := snd (updateDeliveryStatus subs id (Some "delivered"%string) today) in
  exists sub1,
    subs1 !! id = Some sub1 /\
    deliveryStatus sub1 = "delivered"%string /\
    getSubscription tz subs1 id now =
      if startOfDay tz now =? startOfDay tz (nextDate (plan sub) today)
      then (SubEffective (setDeliveryStatus sub1 "packed") "packed",
            <[id := setDeliveryStatus sub1 "packed"]> subs1)
      else (SubEffective sub1 "pending", subs1).
Proof.
  intros Hsub Hge. cbv zeta.
  rewrite (updateDeliveryStatus_delivered _ _ _ _ Hsub). cbn [snd].
  eexists. split; [apply lookup_insert_eq|]. split; [reflexivity|].
  rewrite (getSubscription_delivered tz _ id _ now today
             (nextDate (plan sub) today) (lookup_insert_eq _ _ _)
             (delivered_deliveryStatus _ _) (delivered_lastDeliveredDate _ _)
             (delivered_nextDelivery _ _) (startOfDay_nextDate _ _ _)).
  destruct (startOfDay tz now =? startOfDay tz (nextDate (plan sub) today));
    [reflexivity|].
  pose proof (startOfDay_nextDate tz (plan sub) today) as Hlt.
  assert (H1 : (startOfDay tz today <=? startOfDay tz now)
               && (startOfDay tz now <? startOfDay tz (nextDate (plan sub) today))
               = false).
  { apply andb_false_iff. right. apply Z.ltb_ge. lia. }
  assert (H2 : (startOfDay tz (nextDate (plan sub) today) <=? startOfDay tz now)
               = true) by (apply Z.leb_le; lia).
  rewrite H1, H2. reflexivity.
Qed.

Lemma getSubscription_from_next_delivery_day_witness :
  subscriptions subscriptionWorld !! objectId = Some (sampleSubscription "weekly") /\
  startOfDay 19800000
    (nextDate (plan (sampleSubscription "weekly")) 1704844800000)
    <= startOfDay 19800000 1705471200000 /\
  exists sub1,
    getSubscription 19800000
      (snd (updateDeliveryStatus (subscriptions subscriptionWorld) objectId
              (Some "delivered"%string) 1704844800000))
      objectId 1705471200000 =
    (SubEffective (setDeliveryStatus sub1 "packed") "packed",
     <[objectId := setDeliveryStatus sub1 "packed"]>
       (snd (updateDeliveryStatus (subscriptions subscriptionWorld) objectId
               (Some "delivered"%string) 1704844800000))).
Proof.
  assert (Hday : startOfDay 19800000
                   (nextDate (plan (sampleSubscription "weekly")) 1704844800000)
                   <= startOfDay 19800000 1705471200000)
    by (apply Z.leb_le; vm_compute; reflexivity).
  split; [exact subscriptionWorld_subscription|]. split; [exact Hday|].
  destruct (getSubscription_from_next_delivery_day 19800000 _ objectId _
              1704844800000 1705471200000 subscriptionWorld_subscription Hday)
    as (sub1 & _ & _ & Hget).
  exists sub1. exact Hget.
Defined.

(** X26. [GET /:id] is idempotent at a given time: a second request gets
    the answer of the first and writes nothing more. *)
Theorem getSubscription_idempotent (tz : Z)
    (subs : gmap string SubscriptionDoc) (id : string) (now : Date) :
  getSubscription tz (snd (getSubscription tz subs id now)) id now =
  (fst (getSubscription tz subs id now), snd (getSubscription tz subs id now)).
Proof.
  unfold getSubscription at 2 3 4.
  destruct (subs !! id) as [sub|] eqn:Hsub; cbv zeta.
  - destruct (nextDelivery sub) as [nd|] eqn:Hnd; cbn [option_map].
    + destruct ((startOfDay tz now =? startOfDay tz nd)
                && (effectiveStatus sub (startOfDay tz now)
                      (Some (startOfDay tz nd))
                      (option_map (startOfDay tz) (lastDeliveredDate sub))
                    =? "pending")%string) eqn:Hc; cbn [fst snd].
      * unfold getSubscription. rewrite lookup_insert_eq. cbv zeta.
        cbn [setDeliveryStatus nextDelivery lastDeliveredDate]. rewrite Hnd.
        cbn [option_map].
        apply andb_true_iff in Hc. destruct Hc as [Hday _]. rewrite Hday.
        assert (He : effectiveStatus (setDeliveryStatus sub "packed")
                       (startOfDay tz now) (Some (startOfDay tz nd))
                       (option_map (startOfDay tz) (lastDeliveredDate sub))
                     = "packed"%string).
        { unfold effectiveStatus. cbn [setDeliveryStatus deliveryStatus].
          change (or_pending "packed") with "packed"%string.
          change ("packed" =? "delivered")%string with false.
          destruct (option_map _ _); reflexivity. }
        unfold setDeliveryStatus at 1. cbn [deliveryStatus].
        fold (setDeliveryStatus sub "packed"). rewrite He.
        change ("packed" =? "pending")%string with false. cbn [andb].
        reflexivity.
      * unfold getSubscription. rewrite Hsub. cbv zeta. rewrite Hnd.
        cbn [option_map]. rewrite Hc. reflexivity.
    + cbn [fst snd]. unfold getSubscription. rewrite Hsub. cbv zeta. rewrite Hnd.
      cbn [option_map]. reflexivity.
  - cbn [fst snd]. unfold getSubscription. rewrite Hsub. reflexivity.
Qed.

End SubscriptionMore.

(** ** Reading a tracking record *)

Section TrackingGetMore.
Import JS Polyline PolylineSpec Tracking TrackingSpec TrackingGet RouteSamples.

Lemma getTracking_found w id clock t :
  trackings w !! id = Some t ->
  getTracking w id clock = (Ok200 (trackingObj t), w).
Proof. intros H. unfold getTracking. rewrite H. reflexivity. Qed.

Lemma getTracking_missing w id clock :
  trackings w !! id = None ->
  getTracking w id clock =
  (Ok200 (trackingObj (newTracking id clock)),
   {| trackings := <[id := newTracking id clock]> (trackings w);
      subscriptions := subscriptions w;
      emitted := emitted w |}).
Proof. intros H. unfold getTracking. rewrite H. reflexivity. Qed.

(** X27. [GET /:orderId] gets the record or creates it, once: a record
    it creates has the status assigned and no route, a second request
    gets the answer of the first and creates nothing, no event is
    emitted, and a location update that follows finds the record. *)
Theorem getTracking_creates_once (w : World) (id : string)
    (clock clock' : CreateClock) (body : LocationBody) (lclock : LocationClock) :
  let w1 := snd (getTracking w id clock) in
  getTracking w1 id clock' = (fst (getTracking w id clock), w1) /\
  (trackings w !! id = None ->
     trackings w1 !! id = Some (newTracking id clock) /\
     fst (getTracking w id clock) = Ok200 (newTracking id clock)) /\
  (forall id', id' <> id -> trackings w1 !! id' = trackings w !! id') /\
  subscriptions w1 = subscriptions w /\
  emitted w1 = emitted w /\
  exists t', fst (updateLocation w1 id body lclock) = Ok200 t'.
Proof.
  cbv zeta.
  destruct (trackings w !! id) as [t|] eqn:Ht.
  - rewrite !(getTracking_found _ _ _ _ Ht). cbn [fst snd].
    split; [reflexivity|]. split; [discriminate|].
    split; [reflexivity|]. split; [reflexivity|]. split; [reflexivity|].
    rewrite (updateLocation_found _ _ _ _ _ Ht). eexists. reflexivity.
  - rewrite !(getTracking_missing _ _ clock Ht). cbn [fst snd].
    set (w1 := {| trackings := <[id := newTracking id clock]> (trackings w);
                  subscriptions := subscriptions w; emitted := emitted w |}).
    assert (Ht1 : trackings w1 !! id = Some (newTracking id clock))
      by (cbn [w1 trackings]; apply lookup_insert_eq).
    split; [rewrite (getTracking_found _ _ _ _ Ht1); reflexivity|].
    split; [intros _; split; [exact Ht1 | reflexivity]|].
    split; [intros id' Hne; cbn [w1 trackings]; apply lookup_insert_ne; congruence|].
    split; [reflexivity|]. split; [reflexivity|].
    rewrite (updateLocation_found w1 id body lclock _ Ht1).
    eexists. reflexivity.
Qed.

(** X28. A record that stores its route as a polyline only is answered
    with the points of that polyline: when the polyline is the encoding
    of a route of valid latitudes and longitudes, the answer carries the
    points of that route, snapped to the 1e-5 grid, and the stored record
    stays as it is. *)
Theorem getTracking_decodes_polyline (w : World) (id : string)
    (clock : CreateClock) (t : TrackingDoc) (s : string) (pts : list LatLng) :
  trackings w !! id = Some t ->
  points (route t) = [] ->
  polyline (route t) = Some s ->
  pts <> [] ->
  Forall geographic pts ->
  encodePolyline pts = Some (of_string s) ->
  exists t',
    getTracking w id clock = (Ok200 t', w) /\
    points (route t') = map routePoint_of (map snap pts) /\
    length (points (route t')) = length pts.
Proof.
  intros Ht Hpoints Hpoly Hne Hgeo Henc.
  destruct (decode_encode_snaps pts (geographic_deltas_in_range pts Hgeo))
    as (s' & Hs' & Hdec).
  rewrite Henc in Hs'. inversion Hs'; subst s'.
  assert (Hs : (s =? "")%string = false).
  { apply String.eqb_neq. intros ->. destruct pts as [|p rest]; [congruence|].
    cbn [of_string] in Henc.
    apply encodePolyline_loop_length in Henc. simpl in Henc. lia. }
  unfold getTracking. rewrite Ht. eexists. split; [reflexivity|].
  cbn [trackingObj route points]. unfold responsePoints.
  rewrite Hpoints, Hpoly, Hs, Hdec.
  split; [reflexivity|]. rewrite !length_map. reflexivity.
Qed.

Lemma polylineWorld_lookup :
  trackings polylineWorld !! "order123"%string = Some polylineTracking.
Proof. unfold polylineWorld. cbn [trackings]. apply lookup_singleton_eq. Qed.

Lemma googleSample_nonempty : googleSample <> [].
Proof. discriminate. Qed.

Lemma getTracking_decodes_polyline_witness :
  trackings polylineWorld !! "order123"%string = Some polylineTracking /\
  points (route polylineTracking) = [] /\
  polyline (route polylineTracking) = Some "_p~iF~ps|U_ulLnnqC_mqNvxq`@"%string /\
  googleSample <> [] /\
  Forall geographic googleSample /\
  encodePolyline googleSample = Some (of_string "_p~iF~ps|U_ulLnnqC_mqNvxq`@") /\
  exists t',
    getTracking polylineWorld "order123"
      {| lastUpdatedNow := 1704844800000; createdNow := 1704844800000 |}
      = (Ok200 t', polylineWorld) /\
    points (route t') = map routePoint_of (map snap googleSample) /\
    length (points (route t')) = length googleSample.
Proof.
  split; [exact polylineWorld_lookup|]. split; [reflexivity|].
  split; [reflexivity|]. split; [exact googleSample_nonempty|].
  split; [exact googleSample_geographic|]. split; [exact encode_google_sample|].
  exact (getTracking_decodes_polyline polylineWorld "order123" _ polylineTracking
           _ googleSample polylineWorld_lookup eq_refl eq_refl
           googleSample_nonempty googleSample_geographic encode_google_sample).
Defined.

End TrackingGetMore.
